(** * ThreatExchange fetcher: a shallow embedding of the Python sources

  Embedded sources:
  - [threatexchange/fetcher/apis/fb_threatexchange_api.py]
    (checkpoint, opinion reconciliation, the signal exchange API object);
  - [threatexchange/fetcher/collab_config.py] (the config store base class);
  - [threatexchange/cli/cli_config.py] (the CLI's cached collab store).

  Python [int] is [Z]; [str] is [string]; a [dict] whose iteration order
  reaches the output is an insertion-ordered association list ([odict]);
  a [dict] used only for lookup is a [gmap]; an exception is the [Raise]
  branch of [result]; an object mutated in place is threaded explicitly. *)

From Stdlib Require Import QArith Qround.
From stdpp Require Import gmap strings list fin_maps sorting.

Local Open Scope Z_scope.


(* ===================================================================== *)
(** ** Python building blocks *)
(* ===================================================================== *)

Module Py.

(** The two kinds of value that meet in the status comparison of
    [from_threatexchange_json]: a [str], and a [tuple] of values. *)
#[warnings="-register-all"]
Inductive Val :=
| Str (s : string)
| Tuple (items : list Val).

(** Python [==]: values of different types are unequal; tuples compare
    element by element. *)
Fixpoint eqb (a b : Val) : bool :=
  match a, b with
  | Str s, Str t => bool_decide (s = t)
  | Tuple xs, Tuple ys =>
      (fix go (xs ys : list Val) : bool :=
         match xs, ys with
         | [], [] => true
         | x :: xs', y :: ys' => eqb x y && go xs' ys'
         | _, _ => false
         end) xs ys
  | _, _ => false
  end.

(** [sorted(...)] on strings: a stable insertion sort by code point. *)
Fixpoint insert_sorted (s : string) (l : list string) : list string :=
  match l with
  | [] => [s]
  | t :: l' => if String.leb s t then s :: l else t :: insert_sorted s l'
  end.

Definition sorted (l : list string) : list string :=
  foldr insert_sorted [] l.

(** [int(x)] of a float: truncation towards zero. *)
Definition int_of_float (x : Q) : Z := Z.quot (Qnum x) (Zpos (Qden x)).

(** Exceptions raised by the embedded code, or coming out of the
    ThreatExchange client it calls. *)
Inductive Exc :=
| Exception (msg : string)
| NotImplementedError
| ApiError (detail : string)
| OSError (detail : string).

Inductive result (A : Type) :=
| Ok (a : A)
| Raise (e : Exc).
Arguments Ok {A} a.
Arguments Raise {A} e.

Definition bind {A B} (r : result A) (k : A → result B) : result B :=
  match r with
  | Ok a => k a
  | Raise e => Raise e
  end.

Definition is_ok {A} (r : result A) : bool :=
  match r with Ok _ => true | Raise _ => false end.

(** *** Insertion-ordered dictionaries

    [d[k] = v] replaces the value in place when [k] is present and
    appends the pair otherwise; iteration follows first insertion. *)
Section odict.
Context {K V : Type} `{EqDecision K}.

Fixpoint dict_set (k : K) (v : V) (d : list (K * V)) : list (K * V) :=
  match d with
  | [] => [(k, v)]
  | (k', v') :: d' =>
      if decide (k = k') then (k, v) :: d' else (k', v') :: dict_set k v d'
  end.

Fixpoint dict_get (k : K) (d : list (K * V)) : option V :=
  match d with
  | [] => None
  | (k', v') :: d' => if decide (k = k') then Some v' else dict_get k d'
  end.

(** [del d[k]] for a key that may be absent. *)
Fixpoint dict_remove (k : K) (d : list (K * V)) : list (K * V) :=
  match d with
  | [] => []
  | (k', v') :: d' =>
      if decide (k = k') then d' else (k', v') :: dict_remove k d'
  end.

(** [k in d] *)
Definition dict_mem (k : K) (d : list (K * V)) : bool :=
  match dict_get k d with Some _ => true | None => false end.

Definition dict_keys (d : list (K * V)) : list K := d.*1.
Definition dict_values (d : list (K * V)) : list V := d.*2.

(** [{key(x): val(x) for x in xs}] *)
Definition dict_comprehension {A} (key : A → K) (val : A → V) (xs : list A)
  : list (K * V) :=
  fold_left (λ d x, dict_set (key x) (val x) d) xs [].
End odict.

End Py.

Abbreviation odict K V := (list (K * V)) (only parsing).

(* ===================================================================== *)
(** ** threatexchange.fetcher.fetch_state (the parts the API uses) *)
(* ===================================================================== *)

Module state.

Inductive SignalOpinionCategory :=
| FALSE_POSITIVE
| WORTH_INVESTIGATING
| TRUE_POSITIVE.

(** The [tags] slot receives a list from a descriptor and [set()] from
    the reaction and report paths. *)
Inductive Tags :=
| TagList (l : list string)
| TagSet (s : gset string).

Record SignalOpinion := mkSignalOpinion {
  so_owner : Z;
  so_category : SignalOpinionCategory;
  so_tags : Tags;
}.

End state.

(* ===================================================================== *)
(** ** threatexchange.fetcher.apis.fb_threatexchange_api *)
(* ===================================================================== *)

Module fb.
Import state.

(** *** Wire data

    [ThreatUpdateJSON] is declared outside the embedded sources. The
    records below hold the fields [from_threatexchange_json] and
    [fetch_once] read, as selected by [te_threat_updates_fields]:
    ids already converted by [int(...)], and the two optional keys that
    the code reads with [.get]. *)
Record Reaction := mkReaction {
  rxn_key : string;   (* reaction["key"] *)
  rxn_value : Z;      (* int(reaction["value"]) *)
}.

(** [tags] is either a plain list of strings or the untransformed
    [{"data": [{"text": ...}, ...]}] form. *)
Inductive TagsJSON :=
| TagsPlain (l : list string)
| TagsDict (texts : list string).

Record DescriptorJSON := mkDescriptor {
  td_id : Z;
  td_owner_id : Z;
  td_status : string;
  td_tags : option TagsJSON;
  td_reactions : option (list Reaction);
}.

Record ThreatUpdateJSON := mkUpdate {
  should_delete : bool;
  threat_type : string;
  indicator : string;
  time : Z;
  descriptors_data : list DescriptorJSON;  (* raw_json["descriptors"]["data"] *)
}.

(** *** FBThreatExchangeOpinion *)
Definition REACTION_DESCRIPTOR_ID : Z := -1.

Record FBThreatExchangeOpinion := mkOpinion {
  owner : Z;
  category : SignalOpinionCategory;
  tags : Tags;
  descriptor_id : option Z;
}.

(** *** FBThreatExchangeIndicatorRecord *)
Record FBThreatExchangeIndicatorRecord := mkRecord {
  opinions : list FBThreatExchangeOpinion;
}.

Definition get_as_opinions (self : FBThreatExchangeIndicatorRecord) :=
  opinions self.

(** Lines 90-109: the opinion built from one descriptor. [status] is
    the one-element tuple [(td_json["status"],)], and it is this tuple
    that is compared with the two strings. *)
Definition descriptor_opinion (td_json : DescriptorJSON)
  : FBThreatExchangeOpinion :=
  let td_id := td_id td_json in
  let owner_id := td_owner_id td_json in
  let status := Py.Tuple [Py.Str (td_status td_json)] in
  let tags :=
    match td_tags td_json with
    | None => []
    | Some (TagsPlain l) => l
    | Some (TagsDict texts) => Py.sorted texts
    end in
  let category :=
    if Py.eqb status (Py.Str "MALICIOUS") then TRUE_POSITIVE
    else if Py.eqb status (Py.Str "NON_MALICIOUS") then FALSE_POSITIVE
    else WORTH_INVESTIGATING in
  mkOpinion owner_id category (TagList tags) (Some td_id).

(** Lines 112-119: one reaction against [implicit_opinions]. *)
Definition reaction_step (implicit_opinions : odict Z SignalOpinionCategory)
    (reaction : Reaction) : odict Z SignalOpinionCategory :=
  let rxn := rxn_key reaction in
  let owner := rxn_value reaction in
  if bool_decide (rxn = "HELPFUL") then
    Py.dict_set owner TRUE_POSITIVE implicit_opinions
  else if bool_decide (rxn = "DISAGREE_WITH_TAGS")
          && negb (Py.dict_mem owner implicit_opinions) then
    Py.dict_set owner FALSE_POSITIVE implicit_opinions
  else implicit_opinions.

(** Lines 89-119: the body of the loop over descriptors, on the pair
    [(explicit_opinions, implicit_opinions)]. *)
Definition descriptor_step
    (acc : odict Z FBThreatExchangeOpinion * odict Z SignalOpinionCategory)
    (td_json : DescriptorJSON)
  : odict Z FBThreatExchangeOpinion * odict Z SignalOpinionCategory :=
  (Py.dict_set (td_owner_id td_json) (descriptor_opinion td_json) acc.1,
   fold_left reaction_step (default [] (td_reactions td_json)) acc.2).

Definition reaction_opinion (owner_id : Z) (category : SignalOpinionCategory)
  : FBThreatExchangeOpinion :=
  mkOpinion owner_id category (TagSet ∅) (Some REACTION_DESCRIPTOR_ID).

(** Lines 121-129: the body of the loop over [implicit_opinions.items()]. *)
Definition implicit_step (explicit_opinions : odict Z FBThreatExchangeOpinion)
    (item : Z * SignalOpinionCategory) : odict Z FBThreatExchangeOpinion :=
  let '(owner_id, category) := item in
  if Py.dict_mem owner_id explicit_opinions then explicit_opinions
  else Py.dict_set owner_id (reaction_opinion owner_id category) explicit_opinions.

(** The two dictionaries after the first loop. *)
Definition collect_opinions (te_json : ThreatUpdateJSON)
  : odict Z FBThreatExchangeOpinion * odict Z SignalOpinionCategory :=
  fold_left descriptor_step (descriptors_data te_json) ([], []).

(** Lines 79-134. *)
Definition from_threatexchange_json (te_json : ThreatUpdateJSON)
  : option FBThreatExchangeIndicatorRecord :=
  if should_delete te_json then None
  else
    let '(explicit_opinions, implicit_opinions) := collect_opinions te_json in
    let explicit_opinions :=
      fold_left implicit_step implicit_opinions explicit_opinions in
    match explicit_opinions with
    | [] => None
    | _ => Some (mkRecord (Py.dict_values explicit_opinions))
    end.

(** Lines 136-154. *)
Definition te_threat_updates_fields : list string :=
  [ "indicator"; "type"; "last_updated"; "should_delete";
    "descriptors{" +:+
      String.concat "," ["id"; "reactions"; "owner{id}"; "tags"; "status"]
      +:+ "}" ].

(** *** Reconciliation as the specification words it

    "Build explicit opinions keyed by owner from primary signal records;
    build implicit opinions keyed by owner. An explicit opinion for an
    owner always overrides an implicit one for the same owner. Implicit
    opinions are added only for owners with no explicit opinion." These
    three definitions follow those sentences, not the code, and are
    compared with [from_threatexchange_json] below. *)
Definition explicit_by_owner (te_json : ThreatUpdateJSON)
  : odict Z FBThreatExchangeOpinion :=
  Py.dict_comprehension td_owner_id descriptor_opinion
    (descriptors_data te_json).

Definition all_reactions (te_json : ThreatUpdateJSON) : list Reaction :=
  descriptors_data te_json ≫= (λ td_json, default [] (td_reactions td_json)).

Definition implicit_by_owner (te_json : ThreatUpdateJSON)
  : odict Z SignalOpinionCategory :=
  fold_left reaction_step (all_reactions te_json) [].

Definition reconciled_opinions (te_json : ThreatUpdateJSON)
  : list FBThreatExchangeOpinion :=
  Py.dict_values (explicit_by_owner te_json) ++
  ((λ oc, reaction_opinion oc.1 oc.2) <$>
     filter (λ oc, oc.1 ∉ Py.dict_keys (explicit_by_owner te_json))
            (implicit_by_owner te_json)).

(** An owner has a reaction with key [k] somewhere in the update. *)
Definition has_reaction (te_json : ThreatUpdateJSON) (k : string) (o : Z)
  : Prop :=
  mkReaction k o ∈ all_reactions te_json.

End fb.

(* --------------------------------------------------------------------- *)
(** *** Checkpoint *)

Module fbapi.
Import state fb.
Export Py.

Record FBThreatExchangeCheckpoint := mkCheckpoint {
  update_time : Z;
  last_fetch_time : Z;
}.

(** [FBThreatExchangeCheckpoint(update_time)]: [last_fetch_time] takes its
    default, [int(time.time())]; [now] is the clock reading. *)
Definition new_checkpoint (now : Q) (update_time : Z)
  : FBThreatExchangeCheckpoint :=
  mkCheckpoint update_time (int_of_float now).

(** Lines 49-55. [now] is what [time.time()] returns; the float is read
    as the rational it denotes. *)
Definition is_stale (now : Q) (self : FBThreatExchangeCheckpoint) : bool :=
  negb (Qle_bool (now - inject_Z (last_fetch_time self))
                 (inject_Z (3600 * 24 * 85))).

(** Lines 57-58. *)
Definition get_progress_timestamp (self : FBThreatExchangeCheckpoint) : Z :=
  update_time self.

(* --------------------------------------------------------------------- *)
(** *** Collaboration configs ([collab_config.py], and lines 28-33) *)

Record CollaborationConfigBase := mkCollab {
  name : string;
  api_name : string;             (* the field [api] *)
  enabled : bool;
  only_signal_types : gset string;
  not_signal_types : gset string;
  only_owners : gset Z;
  not_owners : gset Z;
  only_tags : gset string;
  not_tags : gset string;
}.

Record FBThreatExchangeCollabConfig := mkFBCollab {
  base : CollaborationConfigBase;
  privacy_group : Z;
  app_token_override : option string;
}.

(** A signal type class, referred to by its name. *)
Definition SignalTypeRef := string.

(* --------------------------------------------------------------------- *)
(** *** The ThreatExchange client

    [threatexchange.fb_threatexchange.api] is outside the embedded
    sources: the client object, its paging cursor and the field selector
    are an interface. A cursor is a mutable object; [cursor_next] returns
    the page (or the exception) together with the cursor's new state. *)
Class ThreatExchangeClient := {
  ThreatExchangeAPI : Type;
  CursoredResponse : Type;
  new_api : string → ThreatExchangeAPI;
  app_id : ThreatExchangeAPI → result Z;
  get_threat_updates :
    ThreatExchangeAPI → Z → option Z → Z → list string →
    result CursoredResponse;
  cursor_next :
    CursoredResponse → result (list ThreatUpdateJSON) * CursoredResponse;
  cursor_done : CursoredResponse → bool;
  ThreatUpdateJSON_fields : list string;  (* ThreatUpdateJSON.te_threat_updates_fields() *)
}.

Record SimpleFetchDelta := mkDelta {
  updates : odict (string * string) (option FBThreatExchangeIndicatorRecord);
  checkpoint : FBThreatExchangeCheckpoint;
  done : bool;
}.

Section api.
Context `{client : ThreatExchangeClient}.

(** The fields of the API object: [_api] and [cursors]. *)
Record FBThreatExchangeSignalExchangeAPI := mkAPI {
  _api : option ThreatExchangeAPI;
  cursors : gmap string CursoredResponse;
}.

(** Lines 158-162. *)
Definition __init__ (fb_app_token : option string)
  : FBThreatExchangeSignalExchangeAPI :=
  mkAPI (new_api <$> fb_app_token) ∅.

Definition token_not_configured : Exc :=
  Exception "App Developer token not configured.".

(** Lines 164-168, the property [api]. *)
Definition api (self : FBThreatExchangeSignalExchangeAPI)
  : result ThreatExchangeAPI :=
  match _api self with
  | None => Raise token_not_configured
  | Some a => Ok a
  end.

(** Lines 182-184. *)
Definition resolve_owner (self : FBThreatExchangeSignalExchangeAPI) (id : Z)
  : result string :=
  Raise NotImplementedError.

(** Lines 186-189. *)
Definition get_own_owner_id (self : FBThreatExchangeSignalExchangeAPI)
    (collab : FBThreatExchangeCollabConfig) : result Z :=
  bind (api self) app_id.

(** Lines 197-207: the cursor the call works with, and the object after
    a fresh cursor has been stored. A cursor object is truthy, so
    [not cursor] holds exactly when the name has no entry. *)
Definition obtain_cursor (self : FBThreatExchangeSignalExchangeAPI)
    (collab : FBThreatExchangeCollabConfig)
    (checkpoint : option FBThreatExchangeCheckpoint)
  : result (CursoredResponse * FBThreatExchangeSignalExchangeAPI) :=
  let cursor := cursors self !! name (base collab) in
  let start_time := update_time <$> checkpoint in
  match cursor with
  | Some cursor => Ok (cursor, self)
  | None =>
      bind (api self) (λ a,
      bind (get_threat_updates a (privacy_group collab) start_time 500
              ThreatUpdateJSON_fields) (λ cursor,
      Ok (cursor,
          mkAPI (_api self) (<[name (base collab) := cursor]> (cursors self)))))
  end.

(** Lines 209-215: the loop over one page. *)
Definition scan_page (page : list ThreatUpdateJSON)
  : list ThreatUpdateJSON * Z :=
  fold_left
    (λ '(batch, highest_time) update,
       (batch ++ [update], Z.max (time update) highest_time))
    page ([], 0).

(** Lines 218-230. *)
Definition build_delta (now : Q) (batch : list ThreatUpdateJSON)
    (highest_time : Z) (cursor_is_done : bool) : SimpleFetchDelta :=
  mkDelta
    (dict_comprehension (λ u, (threat_type u, indicator u))
                   from_threatexchange_json batch)
    (new_checkpoint now highest_time)
    cursor_is_done.

(** Lines 209-230, on the cursor in hand. The cursor stored under the
    collaboration's name is the object [next()] advances, so the entry
    follows the cursor's state. *)
Definition fetch_page (now : Q) (self : FBThreatExchangeSignalExchangeAPI)
    (collab : FBThreatExchangeCollabConfig) (cursor : CursoredResponse)
  : result SimpleFetchDelta * FBThreatExchangeSignalExchangeAPI :=
  let '(page, cursor') := cursor_next cursor in
  let self' :=
    mkAPI (_api self) (<[name (base collab) := cursor']> (cursors self)) in
  match page with
  | Raise e => (Raise e, self')
  | Ok page =>
      let '(batch, highest_time) := scan_page page in
      (Ok (build_delta now batch highest_time (cursor_done cursor')), self')
  end.

(** Lines 191-230. [now] is the clock reading taken when the checkpoint
    of the delta is built. *)
Definition fetch_once (now : Q) (self : FBThreatExchangeSignalExchangeAPI)
    (supported_signal_types : list SignalTypeRef)
    (collab : FBThreatExchangeCollabConfig)
    (checkpoint : option FBThreatExchangeCheckpoint)
  : result SimpleFetchDelta * FBThreatExchangeSignalExchangeAPI :=
  match obtain_cursor self collab checkpoint with
  | Raise e => (Raise e, self)
  | Ok (cursor, self) => fetch_page now self collab cursor
  end.

(** Lines 232-250. *)
Definition report_seen (self : FBThreatExchangeSignalExchangeAPI)
    (collab : FBThreatExchangeCollabConfig) (s_type : SignalTypeRef)
    (signal : string) : result unit :=
  Raise NotImplementedError.

Definition report_opinion (self : FBThreatExchangeSignalExchangeAPI)
    (collab : FBThreatExchangeCollabConfig) (s_type : SignalTypeRef)
    (signal : string) (opinion : SignalOpinion) : result unit :=
  Raise NotImplementedError.

(** Lines 252-287. [self.report_opinion] is looked up on the object, so a
    subclass may supply its own; [report_opinion_m] is the method the
    lookup finds. Arguments are evaluated before the call. *)
Section wrappers.
Variable report_opinion_m :
  FBThreatExchangeSignalExchangeAPI → FBThreatExchangeCollabConfig →
  SignalTypeRef → string → SignalOpinion → result unit.

Definition report_true_positive (self : FBThreatExchangeSignalExchangeAPI)
    (collab : FBThreatExchangeCollabConfig) (s_type : SignalTypeRef)
    (signal : string) (metadata : FBThreatExchangeIndicatorRecord)
  : result unit :=
  bind (get_own_owner_id self collab) (λ own,
  report_opinion_m self collab s_type signal
    (mkSignalOpinion own TRUE_POSITIVE (TagSet ∅))).

Definition report_false_positive (self : FBThreatExchangeSignalExchangeAPI)
    (collab : FBThreatExchangeCollabConfig) (s_type : SignalTypeRef)
    (signal : string) (_metadata : FBThreatExchangeIndicatorRecord)
  : result unit :=
  bind (get_own_owner_id self collab) (λ own,
  report_opinion_m self collab s_type signal
    (mkSignalOpinion own FALSE_POSITIVE (TagSet ∅))).
End wrappers.

(** *** Histories of calls on one API object *)
Inductive Call :=
| CallFetchOnce (now : Q) (supported_signal_types : list SignalTypeRef)
    (collab : FBThreatExchangeCollabConfig)
    (checkpoint : option FBThreatExchangeCheckpoint)
| CallGetOwnOwnerId (collab : FBThreatExchangeCollabConfig).

Inductive Outcome :=
| OutDelta (r : result SimpleFetchDelta)
| OutOwner (r : result Z).

Definition call_step (c : Call) (self : FBThreatExchangeSignalExchangeAPI)
  : Outcome * FBThreatExchangeSignalExchangeAPI :=
  match c with
  | CallFetchOnce now types collab checkpoint =>
      let '(r, self') := fetch_once now self types collab checkpoint in
      (OutDelta r, self')
  | CallGetOwnOwnerId collab => (OutOwner (get_own_owner_id self collab), self)
  end.

Fixpoint run_calls (cs : list Call) (self : FBThreatExchangeSignalExchangeAPI)
  : list Outcome * FBThreatExchangeSignalExchangeAPI :=
  match cs with
  | [] => ([], self)
  | c :: cs' =>
      let '(o, self') := call_step c self in
      let '(os, self'') := run_calls cs' self' in
      (o :: os, self'')
  end.

Definition raised (e : Exc) (o : Outcome) : Prop :=
  match o with
  | OutDelta r => r = Raise e
  | OutOwner r => r = Raise e
  end.

(** Consecutive [fetch_once] calls for one collaboration; each element of
    [args] is the clock reading, the signal types and the checkpoint
    passed to that call. *)
Fixpoint fetch_many (self : FBThreatExchangeSignalExchangeAPI)
    (collab : FBThreatExchangeCollabConfig)
    (args : list (Q * list SignalTypeRef * option FBThreatExchangeCheckpoint))
  : list (result SimpleFetchDelta) * FBThreatExchangeSignalExchangeAPI :=
  match args with
  | [] => ([], self)
  | (now, types, checkpoint) :: args' =>
      let '(r, self') := fetch_once now self types collab checkpoint in
      let '(rs, self'') := fetch_many self' collab args' in
      (r :: rs, self'')
  end.

(** The [progress_timestamp] of each delta returned. *)
Definition progress_timestamps (rs : list (result SimpleFetchDelta))
  : list Z :=
  omap (λ r, match r with
             | Ok d => Some (get_progress_timestamp (checkpoint d))
             | Raise _ => None
             end) rs.

(** The calls stay within one pass: every call returned a delta, and none
    before the last reported [done]. *)
Fixpoint within_pass (rs : list (result SimpleFetchDelta)) : Prop :=
  match rs with
  | [] => True
  | [r] => is_ok r = true
  | r :: rs' =>
      match r with
      | Ok d => done d = false ∧ within_pass rs'
      | Raise _ => False
      end
  end.

(** The cursor [c] serves the pages [ps], one per [next()], and is then
    in state [c']. *)
Inductive serves : CursoredResponse → list (list ThreatUpdateJSON) →
                   CursoredResponse → Prop :=
| serves_nil c : serves c [] c
| serves_page c p c' ps c'' :
    cursor_next c = (Ok p, c') → serves c' ps c'' → serves c (p :: ps) c''.

End api.

(** The largest update time of a page, and 0 for an empty page. *)
Definition highest_time_of (page : list ThreatUpdateJSON) : Z :=
  foldr Z.max 0 (time <$> page).

(** Every page after [prev] is non-empty and holds no update older than
    one of the page before it. *)
Fixpoint ascending (prev : list ThreatUpdateJSON)
    (ps : list (list ThreatUpdateJSON)) : Prop :=
  match ps with
  | [] => True
  | p :: ps' =>
      p ≠ [] ∧ (∀ u v, u ∈ prev → v ∈ p → time u ≤ time v) ∧ ascending p ps'
  end.

(** The property of the checkpoints of one pass, as stated for every
    client, object, collaboration and sequence of calls. *)
Definition checkpoints_never_decrease : Prop :=
  ∀ (client : ThreatExchangeClient) self collab args,
    within_pass (fetch_many self collab args).1 →
    Sorted Z.le (progress_timestamps (fetch_many self collab args).1).

(** *** A client that serves fixed pages

    A stand-in for the ThreatExchange client for concrete runs: the
    cursor is the list of pages still to serve, and is done when none is
    left; a start time leaves out the older updates of each page. *)
Definition paged_client (own_id : Z) (pages : list (list ThreatUpdateJSON))
  : ThreatExchangeClient := {|
  ThreatExchangeAPI := string;
  CursoredResponse := list (list ThreatUpdateJSON);
  new_api := λ token, token;
  app_id := λ _, Ok own_id;
  get_threat_updates := λ _ _ start_time _ _,
    Ok (match start_time with
        | None => pages
        | Some t => filter (λ u, t ≤ time u) <$> pages
        end);
  cursor_next := λ c,
    match c with
    | [] => (Raise (ApiError "no next page"), [])
    | p :: c' => (Ok p, c')
    end;
  cursor_done := λ c, match c with [] => true | _ => false end;
  ThreatUpdateJSON_fields := te_threat_updates_fields;
|}.

Definition sample_descriptor (id owner_id : Z) (status : string)
    (reactions : list Reaction) : DescriptorJSON :=
  mkDescriptor id owner_id status (Some (TagsPlain ["tag1"])) (Some reactions).

Definition sample_update (t : Z) (ind : string) : ThreatUpdateJSON :=
  mkUpdate false "HASH_PDQ" ind t [sample_descriptor 100 7 "MALICIOUS" []].

(** An update whose single descriptor, owned by 7, carries reactions:
    owner 7 reacts to its own descriptor, owner 8 first disagrees and is
    then found helpful. *)
Definition reacted_update : ThreatUpdateJSON :=
  mkUpdate false "HASH_PDQ" "abc123" 3
    [sample_descriptor 1 7 "NON_MALICIOUS"
       [mkReaction "HELPFUL" 7; mkReaction "DISAGREE_WITH_TAGS" 8;
        mkReaction "HELPFUL" 8]].

Definition reacted_record : FBThreatExchangeIndicatorRecord :=
  mkRecord [mkOpinion 7 WORTH_INVESTIGATING (TagList ["tag1"]) (Some 1);
            mkOpinion 8 TRUE_POSITIVE (TagSet ∅) (Some (-1))].

Definition sample_collab : FBThreatExchangeCollabConfig :=
  mkFBCollab (mkCollab "Sample" "fb_threatexchange" true ∅ ∅ ∅ ∅ ∅ ∅) 1234 None.

(** Two pages in time order. *)
Definition ordered_pages : list (list ThreatUpdateJSON) :=
  [[sample_update 5 "a"]; [sample_update 7 "b"; sample_update 9 "c"]].

(** One update at time 10, then an empty last page. *)
Definition pages_ending_empty : list (list ThreatUpdateJSON) :=
  [[sample_update 10 "a"]; []].

(** An object constructed with a token, over the client serving [pages]. *)
Definition configured_api (pages : list (list ThreatUpdateJSON))
  : @FBThreatExchangeSignalExchangeAPI (paged_client 42 pages) :=
  @__init__ (paged_client 42 pages) (Some "42|secret").

End fbapi.

(* ===================================================================== *)
(** ** threatexchange.cli.cli_config: the collab config store *)
(* ===================================================================== *)

Module cli.
Import fbapi.

(** An entry of the [collab_configs] directory. *)
Inductive Node :=
| File (content : string)
| Directory.

(** The directory [~/.threatexchange/collab_configs], as the entries a
    listing yields, in that order; [_init_folders_if_needed] has created
    it. Collaboration names are taken to hold no path separator, so that
    [path_for_collab_config] names an entry of this directory. *)
Abbreviation Listing := (odict string Node) (only parsing).

Inductive LoadOutcome :=
| Loaded (config : CollaborationConfigBase)
| WrongTypeError
| LoadError (e : Exc).

(** [json], [dacite] and [threatexchange.cli.dataclass_json] are outside
    the embedded sources. [content_api content] is [content.get("api")]
    when [content] is a dict and the value is a string; any other content
    names no config class. *)
Class ConfigCodec := {
  JSON : Type;
  ConfigClass : Type;
  json_load : string → option JSON;      (* None: JSONDecodeError *)
  content_api : JSON → option string;
  dataclass_load_dict : JSON → ConfigClass → LoadOutcome;
  dataclass_dump : CollaborationConfigBase → string;
}.

(** [s] ends with [suffix]. *)
Definition ends_with (suffix s : string) : bool :=
  let n := String.length s in
  let m := String.length suffix in
  if (m <=? n)%nat then
    bool_decide (String.substring (n - m) m s = suffix)
  else false.

(** [collab_dir.glob("*.json")] *)
Definition glob_json (fs : Listing) : Listing :=
  filter (λ e, ends_with ".json" e.1 = true) fs.

Section store.
Context `{codec : ConfigCodec}.

Record CliState := mkCliState {
  _dir : string;
  _name_to_ctype : gmap string ConfigClass;
  _cache : option (odict string CollaborationConfigBase);
}.

(** Lines 49-63, for the expanded home directory [dir]. *)
Definition __init__ (dir : string) (name_to_ctype : gmap string ConfigClass)
  : CliState :=
  mkCliState dir name_to_ctype None.

Definition collab_dir (self : CliState) : string :=
  _dir self +:+ "/collab_configs".

(** Lines 89-92: the entry name under [collab_dir]. *)
Definition path_for_collab_config (config : CollaborationConfigBase)
  : string :=
  name config +:+ ".json".

(** Lines 108-111. *)
Definition get_collab_names_without_loading (self : CliState) (fs : Listing)
  : list string :=
  match _cache self with
  | Some cache => dict_keys cache
  | None => (λ e, collab_dir self +:+ "/" +:+ e.1) <$> glob_json fs
  end.

(** Lines 121-141: the loop body for one globbed entry, [ret] being the
    list built so far. *)
Definition load_entry (self : CliState) (ret : list CollaborationConfigBase)
    (entry : string * Node) : result (list CollaborationConfigBase) :=
  match entry.2 with
  | Directory => Ok ret
  | File text =>
      match json_load text with
      | None => Ok ret
      | Some content =>
          match content_api content ≫= (λ a, _name_to_ctype self !! a) with
          | None => Ok ret
          | Some ctype =>
              match dataclass_load_dict content ctype with
              | Loaded config => Ok (ret ++ [config])
              | WrongTypeError => Ok ret
              | LoadError e => Raise e
              end
          end
      end
  end.

Fixpoint load_entries (self : CliState) (entries : Listing)
    (ret : list CollaborationConfigBase)
  : result (list CollaborationConfigBase) :=
  match entries with
  | [] => Ok ret
  | entry :: entries' =>
      bind (load_entry self ret entry) (load_entries self entries')
  end.

(** Lines 113-143. *)
Definition get_all_collabs (self : CliState) (fs : Listing)
  : result (list CollaborationConfigBase) * CliState :=
  match _cache self with
  | Some cache => (Ok (dict_values cache), self)
  | None =>
      match load_entries self (glob_json fs) [] with
      | Raise e => (Raise e, self)
      | Ok ret =>
          let cache := dict_comprehension name id ret in
          (Ok (dict_values cache),
           mkCliState (_dir self) (_name_to_ctype self) (Some cache))
      end
  end.

(** [CollaborationConfigStoreBase.get_collab], [collab_config.py] lines
    64-66. *)
Definition get_collab (self : CliState) (fs : Listing) (n : string)
  : result (option CollaborationConfigBase) * CliState :=
  let '(all, self') := get_all_collabs self fs in
  (bind all (λ cs, Ok (head (filter (λ c, name c = n) cs))), self').

(** Lines 145-148. Writing over a directory fails. *)
Definition update_collab (self : CliState)
    (collab : CollaborationConfigBase) (fs : Listing)
  : result unit * Listing :=
  let path := path_for_collab_config collab in
  match dict_get path fs with
  | Some Directory => (Raise (OSError "Is a directory"), fs)
  | _ => (Ok (), dict_set path (File (dataclass_dump collab)) fs)
  end.

(** Lines 150-152: [unlink(missing_ok=True)]. *)
Definition delete_collab (self : CliState)
    (collab : CollaborationConfigBase) (fs : Listing)
  : result unit * Listing :=
  let path := path_for_collab_config collab in
  match dict_get path fs with
  | None => (Ok (), fs)
  | Some (File _) => (Ok (), dict_remove path fs)
  | Some Directory => (Raise (OSError "Is a directory"), fs)
  end.

(** *** Histories of calls on one [CliState]

    [OpExternal] stands for any change made to the directory behind the
    object's back. *)
Inductive Op :=
| OpGetAll
| OpGetCollab (n : string)
| OpGetNames
| OpUpdate (collab : CollaborationConfigBase)
| OpDelete (collab : CollaborationConfigBase)
| OpExternal (fs' : odict string Node).

Inductive Answer :=
| AnsCollabs (r : result (list CollaborationConfigBase))
| AnsCollab (r : result (option CollaborationConfigBase))
| AnsNames (l : list string)
| AnsUnit (r : result unit).

Definition step (op : Op) (w : CliState * odict string Node)
  : Answer * (CliState * odict string Node) :=
  let '(self, fs) := w in
  match op with
  | OpGetAll =>
      let '(r, self') := get_all_collabs self fs in (AnsCollabs r, (self', fs))
  | OpGetCollab n =>
      let '(r, self') := get_collab self fs n in (AnsCollab r, (self', fs))
  | OpGetNames =>
      (AnsNames (get_collab_names_without_loading self fs), (self, fs))
  | OpUpdate collab =>
      let '(r, fs') := update_collab self collab fs in (AnsUnit r, (self, fs'))
  | OpDelete collab =>
      let '(r, fs') := delete_collab self collab fs in (AnsUnit r, (self, fs'))
  | OpExternal fs' => (AnsUnit (Ok ()), (self, fs'))
  end.

Fixpoint run (ops : list Op) (w : CliState * odict string Node)
  : list Answer * (CliState * odict string Node) :=
  match ops with
  | [] => ([], w)
  | op :: ops' =>
      let '(a, w') := step op w in
      let '(answers, w'') := run ops' w' in
      (a :: answers, w'')
  end.

(** What a query answers when it is served from the list [cfgs] that
    [get_all_collabs] returned, whatever the directory holds. *)
Definition served_from (cfgs : list CollaborationConfigBase) (op : Op)
    (a : Answer) : Prop :=
  match op with
  | OpGetAll => a = AnsCollabs (Ok cfgs)
  | OpGetCollab n => a = AnsCollab (Ok (head (filter (λ c, name c = n) cfgs)))
  | OpGetNames => a = AnsNames (name <$> cfgs)
  | _ => True
  end.

End store.

(** *** A codec for concrete runs

    A stand-in for the JSON codec: a file holds the collaboration's name,
    an empty file does not parse, and every content is of api ["sample"]. *)
Definition named_collab (n : string) : CollaborationConfigBase :=
  mkCollab n "sample" true ∅ ∅ ∅ ∅ ∅ ∅.

Definition name_codec : ConfigCodec := {|
  JSON := string;
  ConfigClass := unit;
  json_load := λ text, if bool_decide (text = "") then None else Some text;
  content_api := λ _, Some "sample";
  dataclass_load_dict := λ content _, Loaded (named_collab content);
  dataclass_dump := name;
|}.

Definition sample_state : @CliState name_codec :=
  __init__ "/home/user/.threatexchange" {[ "sample" := () ]}.

Definition sample_listing : odict string Node :=
  [("a.json", File "a"); ("notes.txt", File "n"); ("b.json", File "b")].

End cli.

(* ===================================================================== *)
(** ** threatexchange.cli.cli_config: the persisted config and CLISettings *)
(* ===================================================================== *)

Module cli_settings.
Import fbapi cli.

(** Lines 34-39. *)
Record CLiConfig := mkCLiConfig {
  fb_threatexchange_api_token : option string;
  extensions : gset string;
}.

(** [CLiConfig()] *)
Definition default_CLiConfig : CLiConfig := mkCLiConfig None ∅.

(** [cli_json.dataclass_load_file] and [cli_json.dataclass_dump_file] on
    the config file are outside the embedded sources. The loader sees the
    file's text ([None] when the file is missing) and the default. *)
Class ConfigFileCodec := {
  dataclass_load_file : option string → CLiConfig → result CLiConfig;
  dataclass_dump_file : CLiConfig → string;
}.

(** What the store reads and writes under [~/.threatexchange]: the
    [collab_configs] listing and the text of [config.json]. *)
Record Disk := mkDisk {
  collab_configs : odict string Node;
  config_json : option string;
}.

(** The exceptions of this layer: a failed dictionary subscript, or an
    exception coming up from the store or a hasher. *)
Inductive CliExc :=
| KeyError (key : string)
| PyExc (e : Exc).

Inductive outcome (A : Type) :=
| Done (a : A)
| Failed (e : CliExc).
Arguments Done {A} a.
Arguments Failed {A} e.

(** [d[k]] *)
Definition subscript {V} (d : odict string V) (k : string) : outcome V :=
  match dict_get k d with
  | Some v => Done v
  | None => Failed (KeyError k)
  end.

(** A signal type class: its name, and the hashing class methods it has
    as a [FileHasher] and as a [TextHasher] ([signal_base] is outside the
    embedded sources). *)
Record SignalTypeCls := mkSignalType {
  st_name : string;                                  (* get_name() *)
  hash_from_file : option (string → result string);  (* FileHasher *)
  hash_from_str : option (string → result string);   (* TextHasher *)
}.

(** A fetcher object, known here by [get_name()]. *)
Class FetcherLike (Fetcher : Type) := get_name : Fetcher → string.

(** [meta.FunctionalityMapping], the four dictionaries the settings
    consult. A content type class is referred to by a string. *)
Record FunctionalityMapping (Fetcher : Type) := mkMapping {
  content_by_name : odict string string;
  signal_type_by_name : odict string SignalTypeCls;
  signal_type_by_content : odict string (list SignalTypeCls);
  fetchers_by_name : odict string Fetcher;
}.
Arguments mkMapping {Fetcher} _ _ _ _.
Arguments content_by_name {Fetcher} _.
Arguments signal_type_by_name {Fetcher} _.
Arguments signal_type_by_content {Fetcher} _.
Arguments fetchers_by_name {Fetcher} _.

Section settings.
Context `{codec : ConfigCodec} `{filecodec : ConfigFileCodec}.
Context {Fetcher : Type} `{!FetcherLike Fetcher}.
(** [StaticSampleSignalExchangeAPI.get_name()] *)
Variable static_sample_name : string.

(** [CliState.get_persistent_config], lines 94-97. *)
Definition state_get_persistent_config (self : CliState) (disk : Disk)
  : result CLiConfig :=
  dataclass_load_file (config_json disk) default_CLiConfig.

(** [CliState.update_persistent_config], lines 99-100. *)
Definition state_update_persistent_config (self : CliState)
    (config : CLiConfig) (disk : Disk) : Disk :=
  mkDisk (collab_configs disk) (Some (dataclass_dump_file config)).

(** Lines 160-169; [index_store] is left out. *)
Record CLISettings := mkCLISettings {
  _mapping : FunctionalityMapping Fetcher;
  _state : CliState;
  _sample_message_printed : bool;
  _config : option CLiConfig;
}.

Definition new_settings (mapping : FunctionalityMapping Fetcher)
    (cli_state : CliState) : CLISettings :=
  mkCLISettings mapping cli_state false None.

(** Lines 171-174. *)
Definition get_persistent_config (self : CLISettings) (disk : Disk)
  : result CLiConfig * CLISettings :=
  match _config self with
  | Some config => (Ok config, self)
  | None =>
      match state_get_persistent_config (_state self) disk with
      | Raise e => (Raise e, self)
      | Ok config =>
          (Ok config,
           mkCLISettings (_mapping self) (_state self)
             (_sample_message_printed self) (Some config))
      end
  end.

(** Lines 176-178. *)
Definition set_persistent_config (self : CLISettings) (config : CLiConfig)
    (disk : Disk) : CLISettings * Disk :=
  (mkCLISettings (_mapping self) (_state self)
     (_sample_message_printed self) (Some config),
   state_update_persistent_config (_state self) config disk).

(** Lines 180-195. *)
Definition get_all_content_types (self : CLISettings) : list string :=
  dict_values (content_by_name (_mapping self)).

Definition get_content_type (self : CLISettings) (n : string)
  : outcome string :=
  subscript (content_by_name (_mapping self)) n.

Definition get_all_signal_types (self : CLISettings) : list SignalTypeCls :=
  dict_values (signal_type_by_name (_mapping self)).

Definition get_signal_type (self : CLISettings) (n : string)
  : outcome SignalTypeCls :=
  subscript (signal_type_by_name (_mapping self)) n.

Definition get_signal_types_for_content (self : CLISettings)
    (content_type : string) : outcome (list SignalTypeCls) :=
  subscript (signal_type_by_content (_mapping self)) content_type.

(** Lines 197-203. *)
Definition get_fetchers (self : CLISettings) : list Fetcher :=
  dict_values (fetchers_by_name (_mapping self)).

Definition get_api_for_collab (self : CLISettings)
    (collab : CollaborationConfigBase) : outcome Fetcher :=
  subscript (fetchers_by_name (_mapping self)) (api_name collab).

Definition sample_message : string :=
  "Looks like you haven't set up a collaboration config, " +:+
  "so using the sample one against sample data".

(** Lines 232-252: the sample collab, the settings after the call and
    what the call prints to stderr. *)
Definition _get_sample_collab (self : CLISettings)
  : CollaborationConfigBase * CLISettings * list string :=
  let printed :=
    if _sample_message_printed self then [] else [sample_message] in
  let self' :=
    mkCLISettings (_mapping self) (_state self) true (_config self) in
  (mkCollab "Sample Signals" static_sample_name true
     (list_to_set (st_name <$> get_all_signal_types self'))
     ∅ ∅ ∅ ∅ ∅,
   self', printed).

(** Lines 217-224. The store object is the one the settings hold, so its
    cache follows the call. *)
Definition get_all_collabs (self : CLISettings) (default_to_sample : bool)
    (disk : Disk)
  : result (list CollaborationConfigBase) * CLISettings * list string :=
  let '(r, st) := cli.get_all_collabs (_state self) (collab_configs disk) in
  let self :=
    mkCLISettings (_mapping self) st (_sample_message_printed self)
      (_config self) in
  match r with
  | Raise e => (Raise e, self, [])
  | Ok collabs =>
      match collabs with
      | [] =>
          if default_to_sample then
            let '(c, self', printed) := _get_sample_collab self in
            (Ok [c], self', printed)
          else (Ok collabs, self, [])
      | _ => (Ok collabs, self, [])
      end
  end.

(** Lines 226-230. *)
Definition get_collab (self : CLISettings) (n : string) (disk : Disk)
  : result (option CollaborationConfigBase) * CLISettings :=
  let '(r, st) := cli.get_collab (_state self) (collab_configs disk) n in
  (r, mkCLISettings (_mapping self) st (_sample_message_printed self)
        (_config self)).

(** Lines 254-258. *)
Definition get_collabs_for_fetcher (self : CLISettings) (fetcher : Fetcher)
    (disk : Disk)
  : result (list CollaborationConfigBase) * CLISettings * list string :=
  let api_name' := get_name fetcher in
  let '(r, self', printed) := get_all_collabs self false disk in
  (bind r (λ cs, Ok (filter (λ c, api_name c = api_name') cs)),
   self', printed).

(** *** Histories of calls on one CLISettings *)
Inductive SettingsOp :=
| SGetConfig
| SSetConfig (config : CLiConfig)
| SGetAllCollabs (default_to_sample : bool)
| SOutside (disk' : Disk).

Inductive SettingsAnswer :=
| SAnsConfig (r : result CLiConfig)
| SAnsCollabs (r : result (list CollaborationConfigBase))
| SAnsNone.

(** One call, on the settings, the disk and what stderr holds so far. *)
Definition settings_step (op : SettingsOp)
    (w : CLISettings * Disk * list string)
  : SettingsAnswer * (CLISettings * Disk * list string) :=
  let '(self, disk, err) := w in
  match op with
  | SGetConfig =>
      let '(r, self') := get_persistent_config self disk in
      (SAnsConfig r, (self', disk, err))
  | SSetConfig config =>
      let '(self', disk') := set_persistent_config self config disk in
      (SAnsNone, (self', disk', err))
  | SGetAllCollabs default_to_sample =>
      let '(r, self', printed) := get_all_collabs self default_to_sample disk in
      (SAnsCollabs r, (self', disk, err ++ printed))
  | SOutside disk' => (SAnsNone, (self, disk', err))
  end.

Fixpoint settings_run (ops : list SettingsOp)
    (w : CLISettings * Disk * list string)
  : list SettingsAnswer * (CLISettings * Disk * list string) :=
  match ops with
  | [] => ([], w)
  | op :: ops' =>
      let '(a, w') := settings_step op w in
      let '(answers, w'') := settings_run ops' w' in
      (a :: answers, w'')
  end.

(** The config each [SGetConfig] of a history must answer when [current]
    is the config held before it: the latest one set. *)
Fixpoint expected_configs (current : CLiConfig) (ops : list SettingsOp)
  : list SettingsAnswer :=
  match ops with
  | [] => []
  | SGetConfig :: ops' => SAnsConfig (Ok current) :: expected_configs current ops'
  | SSetConfig config :: ops' => SAnsNone :: expected_configs config ops'
  | SGetAllCollabs _ :: ops' => SAnsNone :: expected_configs current ops'
  | SOutside _ :: ops' => SAnsNone :: expected_configs current ops'
  end.

(** The answers of a history with those to [SGetAllCollabs] blanked. *)
Definition config_answers (answers : list SettingsAnswer)
  : list SettingsAnswer :=
  (λ a, match a with SAnsCollabs _ => SAnsNone | _ => a end) <$> answers.

End settings.

(** A config-file codec for concrete runs: the file holds the token, an
    empty or missing file gives the default. *)
Definition token_file_codec : ConfigFileCodec := {|
  dataclass_load_file := λ text default,
    match text with
    | None => Ok default
    | Some t => if bool_decide (t = "") then Ok default
                else Ok (mkCLiConfig (Some t) ∅)
    end;
  dataclass_dump_file := λ config,
    default "" (fb_threatexchange_api_token config);
|}.

#[global] Instance string_fetcher : FetcherLike string := λ s, s.

Definition pdq_signal : SignalTypeCls :=
  mkSignalType "pdq" (Some (λ p, Ok ("pdq:" +:+ p))) None.

Definition raw_text_signal : SignalTypeCls :=
  mkSignalType "raw_text"
    (Some (λ p, Raise (OSError "No such file")))
    (Some (λ t, Ok t)).

Definition sample_mapping : FunctionalityMapping string :=
  mkMapping
    [("photo", "photo"); ("text", "text")]
    [("pdq", pdq_signal); ("raw_text", raw_text_signal)]
    [("photo", [pdq_signal]); ("text", [raw_text_signal])]
    [("sample", "sample"); ("fb_threatexchange", "fb_threatexchange")].

Definition sample_settings
  : @CLISettings name_codec string :=
  new_settings sample_mapping sample_state.

End cli_settings.

(* ===================================================================== *)
(** ** threatexchange.cli.main: the app token *)
(* ===================================================================== *)

Module main.
Import fbapi cli_settings.

(** [tx_api.is_valid_app_token] is outside the embedded sources;
    [strip] is [str.strip]. *)
Class AppTokens := {
  is_valid_app_token : string → bool;
  strip : string → string;
}.

(** What [_get_fb_tx_app_token] reads from its surroundings: the
    environment variable, the expanded path of [~/.txtoken] and the text
    of that file ([None] when it does not exist). *)
Record Environment := mkEnvironment {
  TX_ACCESS_TOKEN : option string;
  file_loc : string;
  file_text : option string;
}.

(** The warning printed for an invalid token: the token and the source
    named in the message. *)
Record Warning := mkWarning {
  bad_token : string;
  token_source : string;
}.

(** Truthiness of a source value: [None], [False] and [""] are falsy. *)
Definition truthy (val : option string) : bool :=
  match val with
  | Some s => negb (bool_decide (s = ""))
  | None => false
  end.

Section token.
Context `{tokens : AppTokens}.

(** Lines 121-128. *)
Definition potential_sources (env : Environment) (config : CLiConfig)
  : list (option string * string) :=
  [ (TX_ACCESS_TOKEN env, "TX_ACCESS_TOKEN environment variable");
    (fb_threatexchange_api_token config,
     "`config api fb_threat_exchange --api-token` command");
    (file_text env, file_loc env +:+ " file") ].

(** Lines 130-146: the loop, with what it prints. *)
Fixpoint scan_sources (sources : list (option string * string))
  : option string * list Warning :=
  match sources with
  | [] => (None, [])
  | (val, source) :: sources' =>
      if negb (truthy val) then scan_sources sources'
      else
        let val := strip (default "" val) in
        if is_valid_app_token val then (Some val, [])
        else (None, [mkWarning val source])
  end.

(** Lines 111-146. *)
Definition _get_fb_tx_app_token (env : Environment) (config : CLiConfig)
  : option string * list Warning :=
  scan_sources (potential_sources env config).

(** Line 191 of [_get_settings]: the ThreatExchange fetcher the CLI
    builds. *)
Definition fb_fetcher `{client : ThreatExchangeClient} (env : Environment)
    (config : CLiConfig) : FBThreatExchangeSignalExchangeAPI :=
  fbapi.__init__ (_get_fb_tx_app_token env config).1.

End token.

(** *** ASCII whitespace stripping, for concrete runs *)
Definition is_space (c : Ascii.ascii) : bool :=
  let n := Ascii.nat_of_ascii c in
  ((9 <=? n) && (n <=? 13) || (n =? 32))%nat.

Fixpoint lstrip_list (l : list Ascii.ascii) : list Ascii.ascii :=
  match l with
  | c :: l' => if is_space c then lstrip_list l' else l
  | [] => []
  end.

Definition ascii_rstrip (s : string) : string :=
  String.string_of_list_ascii
    (reverse (lstrip_list (reverse (String.list_ascii_of_string s)))).

Definition ascii_strip (s : string) : string :=
  String.string_of_list_ascii
    (lstrip_list (String.list_ascii_of_string (ascii_rstrip s))).

(** Tokens for concrete runs: a token counts as valid when it holds a
    vertical bar. *)
Definition bar_tokens : AppTokens := {|
  is_valid_app_token := λ s,
    bool_decide (Ascii.ascii_of_nat 124 ∈ String.list_ascii_of_string s);
  strip := ascii_strip;
|}.

End main.

(* ===================================================================== *)
(** ** threatexchange.cli.hash_cmd *)
(* ===================================================================== *)

Module hash_cmd.
Import fbapi cli cli_settings.

(** [rstrip] is [str.rstrip]. *)
Class PyStrings := { rstrip : string → string }.

(** What the input generator yields: a [str], or the [pathlib.Path] made
    from a token, kept as that token. *)
Inductive HashInput :=
| InText (text : string)
| InPath (token : string).

(** The fields of the command; [input_generator] is what the generator
    has yet to yield. *)
Record HashCommand := mkHashCommand {
  content_type_str : string;
  signal_type : option string;
  input_generator : list HashInput;
}.

Definition USE_STDIN : string := "-".

Section hash.
Context `{strings : PyStrings}.
Context `{codec : ConfigCodec} {Fetcher : Type}.

(** Lines 72-82. *)
Definition _parse_input (input_ : list string) (force_input_to_text : bool)
  : list HashInput :=
  (λ token,
     let token := rstrip token in
     if force_input_to_text then InText token else InPath token) <$> input_.

(** Lines 58-70; [stdin] is the lines standard input holds. *)
Definition __init__ (stdin : list string) (content_type : string)
    (signal_type : option string) (as_text : bool) (content : list string)
  : HashCommand :=
  let content := if decide (content = [USE_STDIN]) then stdin else content in
  mkHashCommand content_type signal_type (_parse_input content as_text).

(** Line 90: [self.signal_type in (None, s.get_name())]. *)
Definition selected (signal_type : option string) (s : SignalTypeCls) : bool :=
  match signal_type with
  | None => true
  | Some n => bool_decide (n = st_name s)
  end.

(** Lines 103-106: the inner loop for one input, over the hashers that
    apply to it; what it prints, and how it ends. *)
Fixpoint hash_one (inp : string)
    (hashers : list (string * (string → result string)))
  : list string * result unit :=
  match hashers with
  | [] => ([], Ok ())
  | (n, hash_fn) :: hashers' =>
      match hash_fn inp with
      | Raise e => ([], Raise e)
      | Ok hash_str =>
          let line :=
            if bool_decide (hash_str = "") then []
            else [n +:+ " " +:+ hash_str] in
          let '(out, r) := hash_one inp hashers' in
          (line ++ out, r)
      end
  end.

(** Lines 96-106: the loop over the generator; what it prints, how it
    ends, and what the generator still holds. *)
Fixpoint hash_all (file_hashers str_hashers :
                     list (string * (string → result string)))
    (inputs : list HashInput)
  : list string * result unit * list HashInput :=
  match inputs with
  | [] => ([], Ok (), [])
  | inp :: inputs' =>
      let '(out, r) :=
        match inp with
        | InText t => hash_one t str_hashers
        | InPath p => hash_one p file_hashers
        end in
      match r with
      | Raise e => (out, Raise e, inputs')
      | Ok _ =>
          let '(out', r', rest) := hash_all file_hashers str_hashers inputs' in
          (out ++ out', r', rest)
      end
  end.

(** Lines 93-94: the classes that are [FileHasher]s, with the method
    called on them; likewise for [TextHasher]. *)
Definition file_hashers_of (all_signal_types : list SignalTypeCls)
  : list (string * (string → result string)) :=
  omap (λ s, (λ f, (st_name s, f)) <$> hash_from_file s) all_signal_types.

Definition str_hashers_of (all_signal_types : list SignalTypeCls)
  : list (string * (string → result string)) :=
  omap (λ s, (λ f, (st_name s, f)) <$> hash_from_str s) all_signal_types.

(** Lines 84-106: what is printed, how the call ends, and the command
    afterwards. *)
Definition execute (self : HashCommand)
    (settings : @CLISettings codec Fetcher)
  : list string * outcome unit * HashCommand :=
  match get_content_type settings (content_type_str self) with
  | Failed e => ([], Failed e, self)
  | Done content_type =>
      match get_signal_types_for_content settings content_type with
      | Failed e => ([], Failed e, self)
      | Done types =>
          let all_signal_types := filter (λ s, selected (signal_type self) s = true) types in
          let '(out, r, rest) :=
            hash_all (file_hashers_of all_signal_types)
                     (str_hashers_of all_signal_types)
                     (input_generator self) in
          (out,
           match r with Ok _ => Done () | Raise e => Failed (PyExc e) end,
           mkHashCommand (content_type_str self) (signal_type self) rest)
      end
  end.

End hash.

Definition ascii_strings : PyStrings := {| rstrip := main.ascii_rstrip |}.

End hash_cmd.

(** ** What one directory entry gives when the collab configs are loaded *)

Module store_notions.
Import fbapi cli.

Section notions.
Context `{codec : ConfigCodec}.

(** The entry is a file that parses, names a known config class and
    converts to the config [c]. *)
Definition loads_as (self : CliState) (entry : string * Node)
    (c : CollaborationConfigBase) : Prop :=
  ∃ text content a ctype,
    entry.2 = File text ∧ json_load text = Some content
    ∧ content_api content = Some a ∧ _name_to_ctype self !! a = Some ctype
    ∧ dataclass_load_dict content ctype = Loaded c.


End notions.
End store_notions.

(** ** Settings that differ in what the signal types do *)

Module hash_notions.
Import fbapi cli cli_settings hash_cmd.

(** The settings with every signal type class replaced by its image
    under [f], in the two dictionaries that hold signal types. *)
Definition with_signal_types `{codec : ConfigCodec} {Fetcher : Type}
    (f : SignalTypeCls → SignalTypeCls) (settings : @CLISettings codec Fetcher)
  : @CLISettings codec Fetcher :=
  mkCLISettings
    (mkMapping
       (content_by_name (_mapping settings))
       ((λ kv : string * SignalTypeCls, (kv.1, f kv.2))
          <$> signal_type_by_name (_mapping settings))
       ((λ kv : string * list SignalTypeCls, (kv.1, f <$> kv.2))
          <$> signal_type_by_content (_mapping settings))
       (fetchers_by_name (_mapping settings)))
    (_state settings) (_sample_message_printed settings) (_config settings).

Definition is_text (inp : HashInput) : Prop :=
  match inp with InText _ => True | InPath _ => False end.

Definition is_path (inp : HashInput) : Prop :=
  match inp with InText _ => False | InPath _ => True end.

End hash_notions.

(** The order [sorted] puts strings in. *)
Definition string_le (a b : string) : Prop := String.leb a b = true.

(* ===================================================================== *)
(** * Properties *)
(* ===================================================================== *)

Import Py state fb fbapi.

(** ** Insertion-ordered dictionaries *)

Section odict_facts.
Context {K V : Type} `{EqDecision K}.
Implicit Types (k : K) (v : V) (d : list (K * V)).

Lemma dict_get_set k k' v d :
  dict_get k' (dict_set k v d) = if decide (k' = k) then Some v else dict_get k' d.
Proof.
  induction d as [|[k0 v0] d IH]; csimpl.
  - destruct (decide (k' = k)); done.
  - destruct (decide (k = k0)) as [->|Hne]; simpl.
    + destruct (decide (k' = k0)); done.
    + destruct (decide (k' = k0)) as [->|?].
      * rewrite decide_False by congruence. done.
      * exact IH.
Qed.

Lemma dict_get_None k d : dict_get k d = None ↔ k ∉ dict_keys d.
Proof.
  unfold dict_keys. induction d as [|[k0 v0] d IH]; csimpl.
  - split; [intros _; apply not_elem_of_nil | done].
  - rewrite not_elem_of_cons. destruct (decide (k = k0)) as [->|Hne].
    + split; [done | intros [? _]; done].
    + rewrite IH. tauto.
Qed.

Lemma dict_mem_true k d : dict_mem k d = true ↔ k ∈ dict_keys d.
Proof.
  unfold dict_mem. destruct (dict_get k d) eqn:E.
  - split; [intros _ | done].
    destruct (decide (k ∈ dict_keys d)) as [|Hn]; [done|].
    apply dict_get_None in Hn. congruence.
  - apply dict_get_None in E. split; [done | intros; contradiction].
Qed.

Lemma dict_mem_false k d : dict_mem k d = false ↔ k ∉ dict_keys d.
Proof.
  rewrite <- dict_mem_true. destruct (dict_mem k d); split; congruence.
Qed.

Lemma dict_set_absent k v d :
  k ∉ dict_keys d → dict_set k v d = d ++ [(k, v)].
Proof.
  unfold dict_keys. induction d as [|[k0 v0] d IH]; csimpl; [done|].
  rewrite not_elem_of_cons. intros [Hne Hd].
  rewrite decide_False by done. by rewrite IH.
Qed.

Lemma dict_keys_set_present k v d :
  k ∈ dict_keys d → dict_keys (dict_set k v d) = dict_keys d.
Proof.
  unfold dict_keys. induction d as [|[k0 v0] d IH]; csimpl.
  - intros Hin. by apply elem_of_nil in Hin.
  - destruct (decide (k = k0)) as [->|Hne]; csimpl; [done|].
    rewrite elem_of_cons. intros [?|Hin]; [done|]. f_equal. by apply IH.
Qed.

Lemma dict_keys_set_elem k k' v d :
  k' ∈ dict_keys (dict_set k v d) ↔ k' = k ∨ k' ∈ dict_keys d.
Proof.
  destruct (decide (k ∈ dict_keys d)) as [Hin|Hout].
  - rewrite dict_keys_set_present by done.
    split; [tauto | intros [->|?]; done].
  - rewrite dict_set_absent by done. unfold dict_keys.
    rewrite fmap_app, elem_of_app. simpl. rewrite list_elem_of_singleton. tauto.
Qed.

Lemma dict_set_NoDup k v d :
  NoDup (dict_keys d) → NoDup (dict_keys (dict_set k v d)).
Proof.
  intros Hnd. destruct (decide (k ∈ dict_keys d)) as [Hin|Hout].
  - by rewrite dict_keys_set_present.
  - rewrite dict_set_absent by done. unfold dict_keys in *.
    rewrite fmap_app. apply NoDup_app. split; [done|]. split.
    + intros x Hx. simpl. rewrite list_elem_of_singleton. intros ->. done.
    + apply NoDup_singleton.
Qed.

Lemma dict_set_elem k v d (e : K * V) :
  e ∈ dict_set k v d → e = (k, v) ∨ e ∈ d.
Proof.
  induction d as [|[k0 v0] d IH]; csimpl.
  - rewrite list_elem_of_singleton. tauto.
  - destruct (decide (k = k0)) as [->|Hne]; rewrite !elem_of_cons.
    + intros [->|?]; tauto.
    + intros [->|He]; [tauto|]. destruct (IH He); tauto.
Qed.

Lemma dict_get_elem k v d : dict_get k d = Some v → (k, v) ∈ d.
Proof.
  induction d as [|[k0 v0] d IH]; csimpl; [done|].
  destruct (decide (k = k0)) as [->|Hne].
  - intros [= ->]. apply elem_of_cons. by left.
  - intros Hg. apply elem_of_cons. right. by apply IH.
Qed.

Lemma dict_elem_get k v d :
  NoDup (dict_keys d) → (k, v) ∈ d → dict_get k d = Some v.
Proof.
  unfold dict_keys. induction d as [|[k0 v0] d IH]; csimpl.
  - intros _ Hin. by apply elem_of_nil in Hin.
  - rewrite NoDup_cons, elem_of_cons. intros [Hk0 Hnd] [Heq|Hin].
    + injection Heq as -> ->. by rewrite decide_True.
    + destruct (decide (k = k0)) as [->|Hne]; [|by apply IH].
      exfalso. apply Hk0. apply list_elem_of_fmap. by exists (k0, v).
Qed.

(** The keys of a comprehension are the keys of its source, as a set. *)
Lemma dict_comprehension_acc_keys {A} (key : A → K) (val : A → V) xs d k :
  k ∈ dict_keys (fold_left (λ d x, dict_set (key x) (val x) d) xs d)
  ↔ k ∈ dict_keys d ∨ k ∈ key <$> xs.
Proof.
  revert d. induction xs as [|x xs IH]; intros d; simpl.
  - rewrite elem_of_nil. tauto.
  - rewrite IH, dict_keys_set_elem, elem_of_cons. tauto.
Qed.

Lemma dict_comprehension_keys {A} (key : A → K) (val : A → V) xs k :
  k ∈ dict_keys (dict_comprehension key val xs) ↔ k ∈ key <$> xs.
Proof.
  unfold dict_comprehension. rewrite dict_comprehension_acc_keys.
  unfold dict_keys. simpl. rewrite elem_of_nil. tauto.
Qed.

Lemma dict_comprehension_acc_NoDup {A} (key : A → K) (val : A → V) xs d :
  NoDup (dict_keys d) →
  NoDup (dict_keys (fold_left (λ d x, dict_set (key x) (val x) d) xs d)).
Proof.
  revert d. induction xs as [|x xs IH]; intros d Hd; simpl; [done|].
  apply IH. by apply dict_set_NoDup.
Qed.

(** Every entry of a comprehension comes from an element of the source. *)
Lemma dict_comprehension_acc_elem {A} (key : A → K) (val : A → V) xs d e :
  e ∈ fold_left (λ d x, dict_set (key x) (val x) d) xs d →
  e ∈ d ∨ ∃ x, x ∈ xs ∧ e = (key x, val x).
Proof.
  revert d. induction xs as [|x xs IH]; intros d; simpl; [tauto|].
  intros He. apply IH in He as [He|(y & Hy & ->)].
  - apply dict_set_elem in He as [->|He]; [|by left].
    right. exists x. split; [apply elem_of_cons; by left | done].
  - right. exists y. split; [apply elem_of_cons; by right | done].
Qed.

End odict_facts.

(** ** Opinion reconciliation *)

Section reconciliation.
Implicit Types (u : ThreatUpdateJSON) (td : DescriptorJSON) (o : Z).

Lemma filter_agree {A} (P Q : A → Prop)
    `{!∀ x, Decision (P x), !∀ x, Decision (Q x)} (l : list A) :
  (∀ x, x ∈ l → P x ↔ Q x) → filter P l = filter Q l.
Proof.
  induction l as [|a l IH]; intros Hpq; [done|].
  assert (P a ↔ Q a) as Ha by (apply Hpq, elem_of_cons; by left).
  assert (filter P l = filter Q l) as Hl.
  { apply IH. intros x Hx. apply Hpq, elem_of_cons. by right. }
  rewrite !filter_cons, Hl.
  destruct (decide (P a)), (decide (Q a)); tauto.
Qed.

(** The status tuple never equals a string. *)
Lemma status_tuple_ne_str s t : Py.eqb (Tuple [Str s]) (Str t) = false.
Proof. reflexivity. Qed.

Lemma descriptor_opinion_owner td : owner (descriptor_opinion td) = td_owner_id td.
Proof. reflexivity. Qed.

Lemma reaction_step_NoDup d r :
  NoDup (dict_keys d) → NoDup (dict_keys (reaction_step d r)).
Proof.
  intros Hd. unfold reaction_step.
  destruct (bool_decide _); [by apply dict_set_NoDup|].
  destruct (_ && _); [by apply dict_set_NoDup | done].
Qed.

Lemma reactions_NoDup rs d :
  NoDup (dict_keys d) → NoDup (dict_keys (fold_left reaction_step rs d)).
Proof.
  revert d. induction rs as [|r rs IH]; intros d Hd; simpl; [done|].
  by apply IH, reaction_step_NoDup.
Qed.

Lemma implicit_by_owner_NoDup u : NoDup (dict_keys (implicit_by_owner u)).
Proof. apply reactions_NoDup. constructor. Qed.

Lemma explicit_by_owner_NoDup u : NoDup (dict_keys (explicit_by_owner u)).
Proof. apply dict_comprehension_acc_NoDup. constructor. Qed.

(** The single loop over descriptors computes the two dictionaries
    independently of each other. *)
Lemma descriptor_loop_split tds e i :
  fold_left descriptor_step tds (e, i) =
  (fold_left (λ d td, dict_set (td_owner_id td) (descriptor_opinion td) d) tds e,
   fold_left reaction_step (tds ≫= (λ td, default [] (td_reactions td))) i).
Proof.
  revert e i. induction tds as [|td tds IH]; intros e i; [done|].
  rewrite bind_cons, fold_left_app. simpl. unfold descriptor_step at 2.
  simpl. apply IH.
Qed.

Lemma collect_opinions_split u :
  collect_opinions u = (explicit_by_owner u, implicit_by_owner u).
Proof. apply descriptor_loop_split. Qed.

(** The loop over [implicit_opinions.items()] appends, in order, the
    reaction opinions of the owners that have no entry yet. *)
Lemma implicit_loop_appends (i : list (Z * SignalOpinionCategory))
    (e : list (Z * FBThreatExchangeOpinion)) :
  NoDup (dict_keys i) →
  fold_left implicit_step i e =
  e ++ ((λ oc, (oc.1, reaction_opinion oc.1 oc.2)) <$>
          filter (λ oc, oc.1 ∉ dict_keys e) i).
Proof.
  revert e. induction i as [|[o c] i IH]; intros e Hnd.
  - simpl. by rewrite app_nil_r.
  - unfold dict_keys in Hnd. rewrite fmap_cons in Hnd.
    apply NoDup_cons in Hnd as [Ho Hnd]. simpl.
    destruct (dict_mem o e) eqn:Hm.
    + apply dict_mem_true in Hm.
      rewrite filter_cons_False by (simpl; tauto). by apply IH.
    + apply dict_mem_false in Hm.
      rewrite filter_cons_True by done. rewrite dict_set_absent by done.
      rewrite IH by done. rewrite <- app_assoc. simpl. do 3 f_equal.
      apply filter_agree. intros [o' c'] Hin. simpl.
      unfold dict_keys. rewrite fmap_app, elem_of_app. simpl.
      rewrite list_elem_of_singleton.
      assert (o' ≠ o).
      { intros ->. apply Ho. apply list_elem_of_fmap. by exists (o, c'). }
      tauto.
Qed.

(** The code computes the reconciliation the specification describes. *)
Lemma from_threatexchange_json_reconciles u :
  from_threatexchange_json u =
  if should_delete u then None
  else match reconciled_opinions u with
       | [] => None
       | ops => Some (mkRecord ops)
       end.
Proof.
  unfold from_threatexchange_json. destruct (should_delete u); [done|].
  rewrite collect_opinions_split.
  rewrite implicit_loop_appends by apply implicit_by_owner_NoDup.
  unfold reconciled_opinions.
  set (e := explicit_by_owner u).
  set (f := filter _ _).
  replace (dict_values e ++ ((λ oc, reaction_opinion oc.1 oc.2) <$> f))
    with (dict_values (e ++ ((λ oc, (oc.1, reaction_opinion oc.1 oc.2)) <$> f))).
  - by destruct (e ++ _).
  - unfold dict_values. rewrite fmap_app. f_equal.
    rewrite <- list_fmap_compose. done.
Qed.

Lemma explicit_by_owner_nil u :
  explicit_by_owner u = [] ↔ descriptors_data u = [].
Proof.
  split.
  - intros He. destruct (descriptors_data u) as [|td tds] eqn:Htds; [done|].
    exfalso. assert (td_owner_id td ∈ dict_keys (explicit_by_owner u)) as Hin.
    { unfold explicit_by_owner. apply dict_comprehension_keys.
      rewrite Htds. apply elem_of_cons. by left. }
    rewrite He in Hin. by apply elem_of_nil in Hin.
  - intros Hd. unfold explicit_by_owner. by rewrite Hd.
Qed.

(** Reactions hang off descriptors, so no descriptor means no opinion. *)
Lemma reconciled_opinions_nil u :
  reconciled_opinions u = [] ↔ descriptors_data u = [].
Proof.
  unfold reconciled_opinions. rewrite app_nil. split.
  - intros [He _]. apply explicit_by_owner_nil.
    unfold dict_values in He. by apply fmap_nil_inv in He.
  - intros Hd. unfold explicit_by_owner, implicit_by_owner, all_reactions.
    by rewrite Hd.
Qed.

(** C2. [from_threatexchange_json] returns [None] exactly for a tombstone
    ([should_delete]) or when reconciliation leaves no opinion; in every
    other case it returns a record whose opinions are the reconciled
    opinions, in order. *)
Theorem from_threatexchange_json_none_iff u :
  (from_threatexchange_json u = None
   ↔ should_delete u = true ∨ reconciled_opinions u = [])
  ∧ (from_threatexchange_json u = None
     ∨ from_threatexchange_json u = Some (mkRecord (reconciled_opinions u))).
Proof.
  rewrite from_threatexchange_json_reconciles.
  destruct (should_delete u); [split; [split|]; auto|].
  destruct (reconciled_opinions u) as [|op ops].
  - split; [split|]; auto.
  - split; [split|]; [done| |by right].
    intros [?|?]; done.
Qed.

(** C8. Whatever its status, "MALICIOUS" and "NON_MALICIOUS" included,
    the opinion built from a descriptor, and stored for the descriptor's
    owner by the loop body, has category [WORTH_INVESTIGATING]. *)
Theorem descriptor_opinion_worth_investigating td acc :
  category (descriptor_opinion td) = WORTH_INVESTIGATING
  ∧ dict_get (td_owner_id td) (descriptor_step acc td).1
    = Some (mkOpinion (td_owner_id td) WORTH_INVESTIGATING
              (tags (descriptor_opinion td)) (Some (td_id td))).
Proof.
  split; [reflexivity|].
  unfold descriptor_step. simpl. rewrite dict_get_set.
  by rewrite decide_True.
Qed.

End reconciliation.

Section precedence.
Implicit Types (u : ThreatUpdateJSON) (td : DescriptorJSON) (o : Z).

Lemma explicit_by_owner_keys u o :
  o ∈ dict_keys (explicit_by_owner u) ↔ o ∈ (td_owner_id <$> descriptors_data u).
Proof. apply dict_comprehension_keys. Qed.

Lemma explicit_by_owner_elem u (e : Z * FBThreatExchangeOpinion) :
  e ∈ explicit_by_owner u →
  ∃ td, td ∈ descriptors_data u ∧ e = (td_owner_id td, descriptor_opinion td).
Proof.
  intros He. apply dict_comprehension_acc_elem in He as [He|He]; [|done].
  by apply elem_of_nil in He.
Qed.

Lemma explicit_by_owner_owners u :
  owner <$> dict_values (explicit_by_owner u) = dict_keys (explicit_by_owner u).
Proof.
  unfold dict_values, dict_keys. rewrite <- list_fmap_compose.
  apply list_fmap_ext. intros j [k op] Hj.
  apply list_elem_of_lookup_2, explicit_by_owner_elem in Hj as (td & _ & [= -> ->]).
  done.
Qed.

Lemma record_opinions_reconciled u r :
  from_threatexchange_json u = Some r → opinions r = reconciled_opinions u.
Proof.
  rewrite from_threatexchange_json_reconciles.
  destruct (should_delete u); [done|].
  destruct (reconciled_opinions u); [done|]. by intros [= <-].
Qed.

(** C3. In the record built for one update no owner has two opinions.
    An opinion whose owner owns a descriptor of the update is the opinion
    built from one of that owner's descriptors; any other opinion is the
    reaction-derived one of an owner that owns no descriptor. *)
Theorem one_opinion_per_owner u r :
  from_threatexchange_json u = Some r →
  NoDup (owner <$> opinions r)
  ∧ ∀ op, op ∈ opinions r →
      (owner op ∈ (td_owner_id <$> descriptors_data u)
       ∧ ∃ td, td ∈ descriptors_data u ∧ op = descriptor_opinion td)
      ∨ ((owner op ∉ (td_owner_id <$> descriptors_data u))
         ∧ ∃ c, dict_get (owner op) (collect_opinions u).2 = Some c
                ∧ op = reaction_opinion (owner op) c).
Proof.
  intros Hr. rewrite (record_opinions_reconciled _ _ Hr).
  rewrite collect_opinions_split. clear r Hr.
  unfold reconciled_opinions. simpl.
  set (f := filter _ _).
  assert (sublist f (implicit_by_owner u)) as Hsub by apply sublist_filter.
  split.
  - rewrite fmap_app, explicit_by_owner_owners, <- list_fmap_compose.
    apply NoDup_app. split; [apply explicit_by_owner_NoDup|]. split.
    + intros o Ho Hin. apply list_elem_of_fmap in Hin as ([o' c] & -> & Hin).
      apply list_elem_of_filter in Hin as [Hout _]. by apply Hout.
    + change (NoDup (dict_keys f)). eapply sublist_NoDup.
      * apply implicit_by_owner_NoDup.
      * unfold dict_keys. by apply fmap_sublist.
  - intros op Hop. apply elem_of_app in Hop as [Hop|Hop].
    + left. apply list_elem_of_fmap in Hop as ([k op'] & -> & Hin). simpl.
      apply explicit_by_owner_elem in Hin as (td & Htd & [= -> ->]).
      split; [|by exists td].
      apply list_elem_of_fmap. by exists td.
    + right. apply list_elem_of_fmap in Hop as ([o c] & -> & Hin). simpl.
      apply list_elem_of_filter in Hin as [Hout Hin]. simpl in Hout.
      rewrite explicit_by_owner_keys in Hout. split; [done|].
      exists c. split; [|done].
      apply dict_elem_get; [apply implicit_by_owner_NoDup | done].
Qed.

(** Once an owner's implicit opinion is [TRUE_POSITIVE], no later
    reaction changes it. *)
Lemma reaction_step_keeps_true_positive d r o :
  dict_get o d = Some TRUE_POSITIVE →
  dict_get o (reaction_step d r) = Some TRUE_POSITIVE.
Proof.
  intros Hd. unfold reaction_step.
  destruct (bool_decide _).
  - rewrite dict_get_set. by destruct (decide _).
  - destruct (bool_decide _); simpl; [|done].
    destruct (dict_mem (rxn_value r) d) eqn:Hm; simpl; [done|].
    rewrite dict_get_set. destruct (decide _) as [->|]; [|done].
    unfold dict_mem in Hm. by rewrite Hd in Hm.
Qed.

Lemma reactions_keep_true_positive rs d o :
  dict_get o d = Some TRUE_POSITIVE →
  dict_get o (fold_left reaction_step rs d) = Some TRUE_POSITIVE.
Proof.
  revert d. induction rs as [|r rs IH]; intros d Hd; simpl; [done|].
  by apply IH, reaction_step_keeps_true_positive.
Qed.

Lemma helpful_reaction_wins rs d o :
  mkReaction "HELPFUL" o ∈ rs →
  dict_get o (fold_left reaction_step rs d) = Some TRUE_POSITIVE.
Proof.
  intros Hin. apply list_elem_of_split in Hin as (rs1 & rs2 & ->).
  rewrite fold_left_app. simpl. apply reactions_keep_true_positive.
  change (reaction_step ?d (mkReaction "HELPFUL" o))
    with (dict_set o TRUE_POSITIVE d).
  rewrite dict_get_set. by rewrite decide_True.
Qed.

(** C9. An owner with a HELPFUL and a DISAGREE_WITH_TAGS reaction in one
    update, in whatever order and on whatever descriptors they arrive,
    has the implicit category [TRUE_POSITIVE]; when the owner owns no
    descriptor, that is the owner's opinion in the record. *)
Theorem helpful_overrides_disagree u o :
  has_reaction u "HELPFUL" o →
  has_reaction u "DISAGREE_WITH_TAGS" o →
  dict_get o (collect_opinions u).2 = Some TRUE_POSITIVE
  ∧ ∀ r, from_threatexchange_json u = Some r →
         o ∉ (td_owner_id <$> descriptors_data u) →
         reaction_opinion o TRUE_POSITIVE ∈ opinions r.
Proof.
  intros Hh _. rewrite collect_opinions_split. simpl.
  assert (dict_get o (implicit_by_owner u) = Some TRUE_POSITIVE) as Hget
    by by apply helpful_reaction_wins.
  split; [done|].
  intros r Hr Hout. rewrite (record_opinions_reconciled _ _ Hr).
  unfold reconciled_opinions.
  apply elem_of_app. right. apply list_elem_of_fmap.
  exists (o, TRUE_POSITIVE). split; [done|].
  apply list_elem_of_filter. split.
  - simpl. by rewrite explicit_by_owner_keys.
  - by apply dict_get_elem.
Qed.

End precedence.

Ltac in_list :=
  repeat first [ apply list_elem_of_here | apply list_elem_of_further ].

Example reacted_update_record :
  from_threatexchange_json reacted_update = Some reacted_record.
Proof. reflexivity. Qed.

(** The precedence example of the specification, with the category the
    code gives the descriptor's opinion: one opinion for owner 7, the
    explicit one. *)
Example explicit_beats_implicit_for_owner_7 :
  from_threatexchange_json
    (mkUpdate false "HASH_PDQ" "abc123" 3
       [mkDescriptor 1 7 "NON_MALICIOUS" None (Some [mkReaction "HELPFUL" 7])])
  = Some (mkRecord [mkOpinion 7 WORTH_INVESTIGATING (TagList []) (Some 1)]).
Proof. reflexivity. Qed.

Example malicious_descriptor_is_worth_investigating :
  category (descriptor_opinion (sample_descriptor 1 7 "MALICIOUS" []))
  = WORTH_INVESTIGATING.
Proof. reflexivity. Qed.

Lemma one_opinion_per_owner_witness :
  from_threatexchange_json reacted_update = Some reacted_record
  ∧ NoDup (owner <$> opinions reacted_record)
  ∧ ∀ op, op ∈ opinions reacted_record →
      (owner op ∈ (td_owner_id <$> descriptors_data reacted_update)
       ∧ ∃ td, td ∈ descriptors_data reacted_update
               ∧ op = descriptor_opinion td)
      ∨ ((owner op ∉ (td_owner_id <$> descriptors_data reacted_update))
         ∧ ∃ c, dict_get (owner op) (collect_opinions reacted_update).2 = Some c
                ∧ op = reaction_opinion (owner op) c).
Proof.
  split; [reflexivity|].
  apply (one_opinion_per_owner reacted_update reacted_record). reflexivity.
Defined.

Lemma helpful_overrides_disagree_witness :
  has_reaction reacted_update "HELPFUL" 8
  ∧ has_reaction reacted_update "DISAGREE_WITH_TAGS" 8
  ∧ dict_get 8 (collect_opinions reacted_update).2 = Some TRUE_POSITIVE
  ∧ ∀ r, from_threatexchange_json reacted_update = Some r →
         8 ∉ (td_owner_id <$> descriptors_data reacted_update) →
         reaction_opinion 8 TRUE_POSITIVE ∈ opinions r.
Proof.
  assert (has_reaction reacted_update "HELPFUL" 8) as Hh
    by (unfold has_reaction; simpl; in_list).
  assert (has_reaction reacted_update "DISAGREE_WITH_TAGS" 8) as Hd
    by (unfold has_reaction; simpl; in_list).
  split; [exact Hh|]. split; [exact Hd|].
  exact (helpful_overrides_disagree reacted_update 8 Hh Hd).
Defined.

(** ** Checkpoints *)

Section checkpoint_facts.
Local Open Scope Q_scope.

(** C4. A checkpoint is stale exactly when the clock reads more than
    85 days (85 * 24 * 3600 seconds) past [last_fetch_time], and its
    progress timestamp is its [update_time]. *)
Theorem is_stale_after_85_days (now : Q) (c : FBThreatExchangeCheckpoint) :
  (is_stale now c = true
   ↔ inject_Z (85 * 24 * 3600) < now - inject_Z (last_fetch_time c))
  ∧ get_progress_timestamp c = update_time c.
Proof.
  split; [|reflexivity].
  unfold is_stale. rewrite negb_true_iff.
  change (3600 * 24 * 85)%Z with (85 * 24 * 3600)%Z.
  split.
  - intros Hb. apply Qnot_le_lt. intros Hle.
    apply Qle_bool_iff in Hle. congruence.
  - intros Hlt. destruct (Qle_bool _ _) eqn:Hb; [|done].
    apply Qle_bool_iff in Hb. exfalso. by apply (Qlt_not_le _ _ Hlt).
Qed.

Example stale_one_second_late :
  is_stale (7344006 # 1) (mkCheckpoint 0 5) = true
  ∧ is_stale (7344005 # 1) (mkCheckpoint 0 5) = false.
Proof. split; reflexivity. Qed.

End checkpoint_facts.

(** ** The signal exchange API object *)

Section api_facts.
Context `{client : ThreatExchangeClient}.
Implicit Types (self : FBThreatExchangeSignalExchangeAPI)
  (collab : FBThreatExchangeCollabConfig)
  (checkpoint : option FBThreatExchangeCheckpoint)
  (cursor : CursoredResponse).

(** C6. When the own owner id resolves to [own], each wrapper hands
    [report_opinion] the same collaboration, signal type and signal, and
    an opinion owned by [own] with the wrapper's category and no tags. *)
Theorem report_positive_forwards
    (report_opinion_m :
       FBThreatExchangeSignalExchangeAPI → FBThreatExchangeCollabConfig →
       SignalTypeRef → string → SignalOpinion → result unit)
    self collab (s_type : SignalTypeRef) (signal : string)
    (metadata : FBThreatExchangeIndicatorRecord) (own : Z) :
  get_own_owner_id self collab = Ok own →
  report_true_positive report_opinion_m self collab s_type signal metadata
  = report_opinion_m self collab s_type signal
      (mkSignalOpinion own TRUE_POSITIVE (TagSet ∅))
  ∧ report_false_positive report_opinion_m self collab s_type signal metadata
    = report_opinion_m self collab s_type signal
        (mkSignalOpinion own FALSE_POSITIVE (TagSet ∅)).
Proof.
  intros Hown. unfold report_true_positive, report_false_positive.
  by rewrite Hown.
Qed.

(** With the class's own [report_opinion] the forwarded call is refused. *)
Lemma report_positive_not_implemented self collab s_type signal metadata own :
  get_own_owner_id self collab = Ok own →
  report_true_positive report_opinion self collab s_type signal metadata
  = Raise NotImplementedError
  ∧ report_false_positive report_opinion self collab s_type signal metadata
    = Raise NotImplementedError.
Proof.
  intros Hown. unfold report_true_positive, report_false_positive.
  by rewrite Hown.
Qed.

(** When the own owner id cannot be had, the exception comes out of the
    wrapper and [report_opinion] is not reached. *)
Lemma report_positive_without_owner
    (report_opinion_m :
       FBThreatExchangeSignalExchangeAPI → FBThreatExchangeCollabConfig →
       SignalTypeRef → string → SignalOpinion → result unit)
    self collab (s_type : SignalTypeRef) (signal : string)
    (metadata : FBThreatExchangeIndicatorRecord) (e : Exc) :
  get_own_owner_id self collab = Raise e →
  report_true_positive report_opinion_m self collab s_type signal metadata
  = Raise e
  ∧ report_false_positive report_opinion_m self collab s_type signal metadata
    = Raise e.
Proof.
  intros Hown. unfold report_true_positive, report_false_positive.
  by rewrite Hown.
Qed.

Lemma unconfigured_call_fails c :
  call_step c (__init__ None) =
  (match c with
   | CallFetchOnce _ _ _ _ => OutDelta (Raise token_not_configured)
   | CallGetOwnOwnerId _ => OutOwner (Raise token_not_configured)
   end, __init__ None).
Proof. by destruct c. Qed.

(** C7. Construction without a token returns an object. On it, in any
    history of [fetch_once] and [get_own_owner_id] calls, every call
    raises "App Developer token not configured." and leaves the object as
    constructed: no cursor is opened and the client is never consulted. *)
Theorem unconfigured_api_fails_fast (calls : list Call) :
  __init__ None = mkAPI None ∅
  ∧ Forall (raised (Exception "App Developer token not configured."))
      (run_calls calls (__init__ None)).1
  ∧ length (run_calls calls (__init__ None)).1 = length calls
  ∧ (run_calls calls (__init__ None)).2 = __init__ None.
Proof.
  split; [reflexivity|].
  induction calls as [|c calls (IH1 & IH2 & IH3)]; [by repeat split|].
  simpl. rewrite unconfigured_call_fails.
  destruct (run_calls calls (__init__ None)) as [os self''].
  simpl in *. repeat split; [|lia|done].
  constructor; [by destruct c | done].
Qed.

Lemma fetch_page_caches now self collab cursor :
  cursors (fetch_page now self collab cursor).2 !! name (base collab)
  = Some (cursor_next cursor).2.
Proof.
  unfold fetch_page. destruct (cursor_next cursor) as [[page|e] cursor']; simpl.
  - destruct (scan_page page). simpl. apply lookup_insert_eq.
  - apply lookup_insert_eq.
Qed.

(** C5. With no cursor cached for the collaboration's name, the client
    is asked for the updates from [checkpoint.update_time], or from the
    start ([None]) when there is no checkpoint, and the page is read from
    that fresh cursor. With a cursor cached, the page is read from it and
    the checkpoint passed plays no part. Either way the advanced cursor
    is the one cached for the next call. *)
Theorem fetch_once_resumes_or_reuses now self
    (types : list SignalTypeRef) collab checkpoint :
  (∀ a fresh,
     cursors self !! name (base collab) = None → _api self = Some a →
     get_threat_updates a (privacy_group collab) (update_time <$> checkpoint)
       500 ThreatUpdateJSON_fields = Ok fresh →
     fetch_once now self types collab checkpoint
     = fetch_page now
         (mkAPI (Some a) (<[name (base collab) := fresh]> (cursors self)))
         collab fresh
     ∧ cursors (fetch_once now self types collab checkpoint).2
         !! name (base collab)
       = Some (cursor_next fresh).2)
  ∧ (∀ cursor, cursors self !! name (base collab) = Some cursor →
       ∀ types' checkpoint',
         fetch_once now self types' collab checkpoint'
         = fetch_page now self collab cursor
         ∧ cursors (fetch_once now self types' collab checkpoint').2
             !! name (base collab)
           = Some (cursor_next cursor).2).
Proof.
  split.
  - intros a fresh Hnone Ha Hfresh.
    assert (fetch_once now self types collab checkpoint
            = fetch_page now
                (mkAPI (Some a) (<[name (base collab) := fresh]> (cursors self)))
                collab fresh) as ->.
    { unfold fetch_once, obtain_cursor, api.
      rewrite Hnone, Ha. simpl. by rewrite Hfresh. }
    split; [done | apply fetch_page_caches].
  - intros cursor Hsome types' checkpoint'.
    assert (fetch_once now self types' collab checkpoint'
            = fetch_page now self collab cursor) as ->.
    { unfold fetch_once, obtain_cursor. by rewrite Hsome. }
    split; [done | apply fetch_page_caches].
Qed.

(** Without a checkpoint the request carries no start time. *)
Lemma fetch_once_from_scratch now self (types : list SignalTypeRef) collab a :
  cursors self !! name (base collab) = None → _api self = Some a →
  fetch_once now self types collab None
  = match get_threat_updates a (privacy_group collab) None 500
            ThreatUpdateJSON_fields with
    | Raise e => (Raise e, self)
    | Ok fresh =>
        fetch_page now
          (mkAPI (Some a) (<[name (base collab) := fresh]> (cursors self)))
          collab fresh
    end.
Proof.
  intros Hnone Ha. unfold fetch_once, obtain_cursor, api.
  rewrite Hnone, Ha. simpl. by destruct (get_threat_updates _ _ _ _ _).
Qed.

End api_facts.

(** ** Checkpoints along one pass *)

Section pass_facts.
Context `{client : ThreatExchangeClient}.
Implicit Types (self : FBThreatExchangeSignalExchangeAPI)
  (collab : FBThreatExchangeCollabConfig)
  (page : list ThreatUpdateJSON).

Lemma scan_page_acc page (batch : list ThreatUpdateJSON) (h : Z) :
  0 ≤ h →
  fold_left
    (λ '(batch, highest_time) update,
       (batch ++ [update], Z.max (time update) highest_time))
    page (batch, h)
  = (batch ++ page, Z.max h (highest_time_of page)).
Proof.
  revert batch h. induction page as [|u page IH]; intros batch h Hh.
  - simpl. rewrite app_nil_r. f_equal. unfold highest_time_of. simpl. lia.
  - simpl. rewrite IH by lia. rewrite <- app_assoc. simpl. f_equal.
    unfold highest_time_of. csimpl. lia.
Qed.

Lemma scan_page_highest page : scan_page page = (page, highest_time_of page).
Proof.
  unfold scan_page. rewrite scan_page_acc by lia. simpl. f_equal.
  assert (0 ≤ highest_time_of page); [|lia].
  unfold highest_time_of. induction page; csimpl; lia.
Qed.

Lemma highest_time_of_bounds page :
  0 ≤ highest_time_of page ∧ Forall (λ u, time u ≤ highest_time_of page) page.
Proof.
  unfold highest_time_of. induction page as [|u page [IH0 IH]]; csimpl.
  - split; [lia | constructor].
  - split; [lia|]. constructor; [lia|].
    eapply Forall_impl; [exact IH|]. simpl. intros; lia.
Qed.

Lemma highest_time_of_attained page :
  highest_time_of page = 0 ∨ ∃ u, u ∈ page ∧ highest_time_of page = time u.
Proof.
  unfold highest_time_of. induction page as [|u page IH]; csimpl; [by left|].
  destruct (Z.max_spec (time u) (foldr Z.max 0 (time <$> page))) as [[_ ->]|[_ ->]].
  - destruct IH as [?|(v & Hv & ?)]; [by left|].
    right. exists v. split; [apply elem_of_cons; by right | done].
  - right. exists u. split; [apply elem_of_cons; by left | done].
Qed.

Lemma highest_time_of_le page page' :
  page' ≠ [] → (∀ u v, u ∈ page → v ∈ page' → time u ≤ time v) →
  highest_time_of page ≤ highest_time_of page'.
Proof.
  intros Hne Hle. destruct (highest_time_of_bounds page') as [H0 Hb].
  destruct (highest_time_of_attained page) as [->|(u & Hu & ->)]; [done|].
  destruct page' as [|v page']; [done|].
  apply Forall_cons in Hb as [Hv _].
  pose proof (Hle u v Hu ltac:(apply elem_of_cons; by left)). lia.
Qed.

(** For a non-empty page of non-negative times it is the maximum. *)
Lemma highest_time_of_is_max page :
  page ≠ [] → Forall (λ u, 0 ≤ time u) page →
  (∃ u, u ∈ page ∧ highest_time_of page = time u)
  ∧ Forall (λ u, time u ≤ highest_time_of page) page.
Proof.
  intros Hne Hpos. split; [|apply highest_time_of_bounds].
  destruct (highest_time_of_attained page) as [H0|?]; [|done].
  destruct page as [|u page]; [done|]. exists u.
  split; [apply elem_of_cons; by left|].
  destruct (highest_time_of_bounds (u :: page)) as [_ Hb].
  apply Forall_cons in Hb as [Hu _]. apply Forall_cons in Hpos as [Hu0 _]. lia.
Qed.

Lemma ascending_sorted page ps :
  ascending page ps → Sorted Z.le (highest_time_of <$> (page :: ps)).
Proof.
  revert page. induction ps as [|p ps IH]; intros page Hasc; csimpl.
  - repeat constructor.
  - destruct Hasc as (Hne & Hle & Hasc). constructor; [by apply IH|].
    constructor. by apply highest_time_of_le.
Qed.

Lemma fetch_page_delta now self collab cursor page cursor' :
  cursor_next cursor = (Ok page, cursor') →
  fetch_page now self collab cursor
  = (Ok (build_delta now page (highest_time_of page) (cursor_done cursor')),
     mkAPI (_api self) (<[name (base collab) := cursor']> (cursors self))).
Proof.
  intros Hnext. unfold fetch_page. rewrite Hnext.
  by rewrite scan_page_highest.
Qed.

(** Calls served from the cached cursor return one delta per page, each
    stamped with the highest time of its page. *)
Lemma fetch_many_cached self collab args cursor ps cursor' :
  cursors self !! name (base collab) = Some cursor →
  serves cursor ps cursor' →
  length args = length ps →
  progress_timestamps (fetch_many self collab args).1 = highest_time_of <$> ps
  ∧ Forall (λ r, is_ok r = true) (fetch_many self collab args).1
  ∧ length (fetch_many self collab args).1 = length ps.
Proof.
  intros Hc Hs. revert self args Hc.
  induction Hs as [c|c p c' ps c'' Hnext Hs IH]; intros self args Hc Hlen.
  - destruct args; [|done]. simpl. by repeat split.
  - destruct args as [|[[now types] ck] args]; [done|].
    injection Hlen as Hlen. simpl.
    assert (fetch_once now self types collab ck = fetch_page now self collab c)
      as -> by (unfold fetch_once, obtain_cursor; by rewrite Hc).
    rewrite (fetch_page_delta _ _ _ _ _ _ Hnext).
    set (self' := mkAPI _ _).
    destruct (IH self' args) as (IHt & IHok & IHlen);
      [apply lookup_insert_eq | done |].
    destruct (fetch_many self' collab args) as [rs self'']. simpl in *.
    rewrite IHt, IHlen. repeat split. by constructor.
Qed.

(** C1, as the code has it. In a pass whose cursor serves the pages
    [p :: ps], every call returns a delta whose checkpoint timestamp is
    the highest update time of that call's page (0 for an empty page; no
    maximum is carried from call to call). The timestamps are
    non-decreasing when every later page is non-empty and holds no update
    older than those of the page before it. *)
Theorem checkpoint_times_follow_pages self collab now
    (types : list SignalTypeRef) checkpoint args cursor self0 p ps cursor' :
  obtain_cursor self collab checkpoint = Ok (cursor, self0) →
  serves cursor (p :: ps) cursor' →
  length args = length ps →
  progress_timestamps
    (fetch_many self collab ((now, types, checkpoint) :: args)).1
  = highest_time_of <$> (p :: ps)
  ∧ length (fetch_many self collab ((now, types, checkpoint) :: args)).1
    = S (length ps)
  ∧ (ascending p ps →
     Sorted Z.le
       (progress_timestamps
          (fetch_many self collab ((now, types, checkpoint) :: args)).1)).
Proof.
  intros Hobt Hs Hlen. inversion Hs as [|c p' c' ps' c'' Hnext Hs']; subst.
  assert (progress_timestamps
            (fetch_many self collab ((now, types, checkpoint) :: args)).1
          = highest_time_of <$> (p :: ps)
          ∧ length (fetch_many self collab ((now, types, checkpoint) :: args)).1
            = S (length ps)) as [Ht Hl].
  { simpl. unfold fetch_once. rewrite Hobt.
    rewrite (fetch_page_delta _ _ _ _ _ _ Hnext).
    set (self' := mkAPI _ _).
    destruct (fetch_many_cached self' collab args c' ps cursor')
      as (IHt & _ & IHlen); [apply lookup_insert_eq | done | done |].
    destruct (fetch_many self' collab args) as [rs self'']. simpl in *.
    by rewrite IHt, IHlen. }
  repeat split; [done | done |].
  intros Hasc. rewrite Ht. by apply ascending_sorted.
Qed.

End pass_facts.

(** ** Concrete passes *)

Example pass_over_ordered_pages :
  progress_timestamps
    (fetch_many (configured_api ordered_pages) sample_collab
       [(0%Q, [], None); (0%Q, [], None)]).1 = [5; 9].
Proof. reflexivity. Qed.

Example pass_over_unordered_pages :
  progress_timestamps
    (fetch_many
       (configured_api [[sample_update 10 "a"]; [sample_update 5 "b"]])
       sample_collab [(0%Q, [], None); (0%Q, [], None)]).1 = [10; 5].
Proof. reflexivity. Qed.

Example pass_ending_with_empty_page :
  let rs := (fetch_many (configured_api pages_ending_empty) sample_collab
               [(0%Q, [], None); (0%Q, [], None)]).1 in
  progress_timestamps rs = [10; 0]
  ∧ (λ r, match r with Ok d => Some (done d) | Raise _ => None end) <$> rs
    = [Some false; Some true].
Proof. split; reflexivity. Qed.

(** C1, as stated, fails: over a stream whose last page is empty, the
    two calls of one pass return the checkpoint timestamps 10 and then 0,
    the first call not reporting [done]. *)
Lemma checkpoint_regresses_after_empty_page :
  let rs := (fetch_many (configured_api pages_ending_empty) sample_collab
               [(0%Q, [], None); (0%Q, [], Some (mkCheckpoint 10 0))]).1 in
  within_pass rs
  ∧ progress_timestamps rs = [10; 0]
  ∧ ¬ Sorted Z.le (progress_timestamps rs).
Proof.
  intros rs.
  assert (progress_timestamps rs = [10; 0]) as Hts by reflexivity.
  split; [vm_compute; split; reflexivity|]. split; [exact Hts|].
  rewrite Hts. intros Hsorted.
  apply Sorted_inv in Hsorted as [_ Hhd].
  apply HdRel_inv in Hhd. lia.
Qed.

(** Hence the property does not hold of every pass. *)
Lemma checkpoints_never_decrease_fails : ¬ checkpoints_never_decrease.
Proof.
  intros Hclaim.
  specialize (Hclaim (paged_client 42 pages_ending_empty)
                (configured_api pages_ending_empty) sample_collab
                [(0%Q, [], None); (0%Q, [], None)]).
  assert (Sorted Z.le [10; 0]) as Hsorted.
  { apply Hclaim. vm_compute. split; reflexivity. }
  apply Sorted_inv in Hsorted as [_ Hhd].
  apply HdRel_inv in Hhd. lia.
Qed.

Lemma checkpoint_times_follow_pages_witness :
  let self := configured_api ordered_pages in
  let rs := (fetch_many self sample_collab [(0%Q, [], None); (0%Q, [], None)]).1 in
  ascending [sample_update 5 "a"] [[sample_update 7 "b"; sample_update 9 "c"]]
  ∧ progress_timestamps rs = [5; 9]
  ∧ length rs = 2%nat
  ∧ Sorted Z.le (progress_timestamps rs).
Proof.
  intros self rs.
  assert (ascending [sample_update 5 "a"]
            [[sample_update 7 "b"; sample_update 9 "c"]]) as Hasc.
  { split; [done|]. split; [|done].
    intros u v Hu Hv. apply list_elem_of_singleton in Hu as ->.
    apply elem_of_cons in Hv as [->|Hv]; [simpl; lia|].
    apply list_elem_of_singleton in Hv as ->. simpl; lia. }
  destruct (checkpoint_times_follow_pages (client := paged_client 42 ordered_pages)
              self sample_collab 0%Q [] None [(0%Q, [], None)]
              ordered_pages
              (mkAPI (_api self) (<["Sample" := ordered_pages]> (cursors self)))
              [sample_update 5 "a"]
              [[sample_update 7 "b"; sample_update 9 "c"]] [])
    as (Ht & Hl & Hs).
  - reflexivity.
  - eapply serves_page; [reflexivity|].
    eapply serves_page; [reflexivity|]. apply serves_nil.
  - reflexivity.
  - split; [exact Hasc|]. split; [exact Ht|]. split; [exact Hl|].
    exact (Hs Hasc).
Defined.

Lemma fetch_once_resumes_or_reuses_witness :
  let client := paged_client 42 ordered_pages in
  let self := configured_api ordered_pages in
  let ck := Some (mkCheckpoint 7 0) in
  let self1 := (fetch_once 0%Q self [] sample_collab ck).2 in
  cursors self !! "Sample" = None
  ∧ fetch_once 0%Q self [] sample_collab ck
    = fetch_page 0%Q
        (mkAPI (Some "42|secret")
           (<["Sample" := [[]; [sample_update 7 "b"; sample_update 9 "c"]]]> ∅))
        sample_collab [[]; [sample_update 7 "b"; sample_update 9 "c"]]
  ∧ cursors self1 !! "Sample" = Some [[sample_update 7 "b"; sample_update 9 "c"]]
  ∧ fetch_once 0%Q self1 [] sample_collab None
    = fetch_once 0%Q self1 [] sample_collab ck.
Proof.
  intros client self ck self1.
  assert (cursors self !! "Sample" = None) as Hnone by reflexivity.
  assert (cursors self1 !! "Sample"
          = Some [[sample_update 7 "b"; sample_update 9 "c"]]) as Hsome
    by reflexivity.
  destruct (fetch_once_resumes_or_reuses (client := client)
              0%Q self [] sample_collab ck) as [Hfresh _].
  destruct (fetch_once_resumes_or_reuses (client := client)
              0%Q self1 [] sample_collab ck) as [_ Hcached].
  split; [exact Hnone|].
  split; [exact (proj1 (Hfresh "42|secret" _ Hnone eq_refl eq_refl))|].
  split; [exact Hsome|].
  destruct (Hcached _ Hsome [] None) as [-> _].
  destruct (Hcached _ Hsome [] ck) as [-> _]. reflexivity.
Defined.

Lemma report_positive_forwards_witness :
  let self := configured_api [] in
  let accept := λ _ _ _ _ (op : SignalOpinion),
                  if decide (so_owner op = 42) then Ok () else Raise NotImplementedError in
  get_own_owner_id self sample_collab = Ok 42
  ∧ report_true_positive accept self sample_collab "pdq" "abc123" reacted_record
    = accept self sample_collab "pdq" "abc123"
        (mkSignalOpinion 42 TRUE_POSITIVE (TagSet ∅))
  ∧ report_false_positive accept self sample_collab "pdq" "abc123" reacted_record
    = accept self sample_collab "pdq" "abc123"
        (mkSignalOpinion 42 FALSE_POSITIVE (TagSet ∅)).
Proof.
  intros self accept. split; [reflexivity|].
  apply (report_positive_forwards (client := paged_client 42 [])
           accept self sample_collab "pdq" "abc123" reacted_record 42).
  reflexivity.
Defined.

(** ** The CLI's collab config store *)

Import cli.

Section store_facts.
Context `{codec : ConfigCodec}.
Implicit Types (self : CliState) (fs : list (string * Node))
  (cfgs : list CollaborationConfigBase).

(** Each entry of the cache built by [get_all_collabs] is keyed by the
    name of its config. *)
Lemma cache_keys_are_names (ret : list CollaborationConfigBase) :
  dict_keys (dict_comprehension name id ret)
  = name <$> dict_values (dict_comprehension name id ret).
Proof.
  unfold dict_keys, dict_values. rewrite <- list_fmap_compose.
  apply list_fmap_ext. intros j [k c] Hj. simpl.
  apply list_elem_of_lookup_2 in Hj.
  apply dict_comprehension_acc_elem in Hj as [Hj|(x & _ & [= -> ->])]; [|done].
  by apply elem_of_nil in Hj.
Qed.

Lemma update_collab_keeps_object self collab fs :
  (step (OpUpdate collab) (self, fs)).2.1 = self.
Proof. simpl. by destruct (update_collab self collab fs). Qed.

Lemma delete_collab_keeps_object self collab fs :
  (step (OpDelete collab) (self, fs)).2.1 = self.
Proof. simpl. by destruct (delete_collab self collab fs). Qed.

(** With the cache filled, a call leaves the object as it is and a query
    is answered from the cache, whatever the directory holds. *)
Lemma step_cached self fs op cache :
  _cache self = Some cache →
  dict_keys cache = name <$> dict_values cache →
  (step op (self, fs)).2.1 = self
  ∧ served_from (dict_values cache) op (step op (self, fs)).1.
Proof.
  intros Hc Hk. destruct op; simpl.
  - unfold get_all_collabs. by rewrite Hc.
  - unfold get_collab, get_all_collabs. by rewrite Hc.
  - unfold get_collab_names_without_loading. by rewrite Hc, Hk.
  - by destruct (update_collab _ _ _).
  - by destruct (delete_collab _ _ _).
  - done.
Qed.

Lemma run_cached self cache ops fs :
  _cache self = Some cache →
  dict_keys cache = name <$> dict_values cache →
  Forall2 (served_from (dict_values cache)) ops (run ops (self, fs)).1
  ∧ (run ops (self, fs)).2.1 = self.
Proof.
  intros Hc Hk. revert fs. induction ops as [|op ops IH]; intros fs.
  - by split.
  - cbn [run]. destruct (step_cached self fs op cache Hc Hk) as [Hself Hans].
    destruct (step op (self, fs)) as [a [self' fs']]. simpl in *. subst self'.
    destruct (IH fs') as [IHa IHs].
    destruct (run ops (self, fs')) as [answers w]. simpl in *.
    split; [by constructor | done].
Qed.

(** C10. After [get_all_collabs] has loaded and returned [cfgs], any
    history of later calls on the object, with [update_collab],
    [delete_collab] and arbitrary outside changes of the directory in
    between, leaves the object unchanged, and in it every
    [get_all_collabs] returns [cfgs], every [get_collab] the first config
    of that name in [cfgs], and every [get_collab_names_without_loading]
    the names of [cfgs]. *)
Theorem collab_cache_is_never_refreshed self fs cfgs self1 :
  _cache self = None →
  get_all_collabs self fs = (Ok cfgs, self1) →
  ∀ ops fs',
    Forall2 (served_from cfgs) ops (run ops (self1, fs')).1
    ∧ (run ops (self1, fs')).2.1 = self1.
Proof.
  intros Hnone Hget ops fs'. unfold get_all_collabs in Hget.
  rewrite Hnone in Hget.
  destruct (load_entries self (glob_json fs) []) as [ret|e]; [|done].
  injection Hget as <- <-.
  apply run_cached; [done | apply cache_keys_are_names].
Qed.

End store_facts.

Example update_is_not_seen_after_loading :
  (run [OpGetAll; OpUpdate (named_collab "z"); OpDelete (named_collab "a");
        OpGetAll; OpGetCollab "z"; OpGetCollab "a"; OpGetNames]
       (sample_state, sample_listing)).1
  = [AnsCollabs (Ok [named_collab "a"; named_collab "b"]);
     AnsUnit (Ok ()); AnsUnit (Ok ());
     AnsCollabs (Ok [named_collab "a"; named_collab "b"]);
     AnsCollab (Ok None); AnsCollab (Ok (Some (named_collab "a")));
     AnsNames ["a"; "b"]].
Proof. vm_compute. reflexivity. Qed.

(** Before any load the names are those of the directory. *)
Example names_before_loading :
  get_collab_names_without_loading sample_state sample_listing
  = ["/home/user/.threatexchange/collab_configs/a.json";
     "/home/user/.threatexchange/collab_configs/b.json"].
Proof. reflexivity. Qed.

Lemma collab_cache_is_never_refreshed_witness :
  let cfgs := [named_collab "a"; named_collab "b"] in
  let self1 :=
    mkCliState "/home/user/.threatexchange" {[ "sample" := () ]}
      (Some [("a", named_collab "a"); ("b", named_collab "b")]) in
  _cache sample_state = None
  ∧ get_all_collabs sample_state sample_listing = (Ok cfgs, self1)
  ∧ ∀ ops fs',
      Forall2 (served_from cfgs) ops (run ops (self1, fs')).1
      ∧ (run ops (self1, fs')).2.1 = self1.
Proof.
  intros cfgs self1.
  assert (get_all_collabs sample_state sample_listing = (Ok cfgs, self1))
    as Hget by reflexivity.
  split; [reflexivity|]. split; [exact Hget|].
  exact (collab_cache_is_never_refreshed sample_state sample_listing cfgs self1
           eq_refl Hget).
Defined.

(* ===================================================================== *)
(** * Further properties of the embedded code *)
(* ===================================================================== *)

(** ** Dictionaries built by a loop of assignments *)

Section odict_more.
Context {K V : Type} `{EqDecision K}.
Implicit Types (k : K) (v : V) (d : list (K * V)).

(** After a loop of [d[key(x)] = val(x)], a key holds the value of the
    last element that wrote it. *)
Lemma dict_get_assignments {A} (key : A → K) (val : A → V) xs d k :
  dict_get k (fold_left (λ d x, dict_set (key x) (val x) d) xs d)
  = match last (filter (λ x, key x = k) xs) with
    | Some x => Some (val x)
    | None => dict_get k d
    end.
Proof.
  revert d. induction xs as [|x xs IH]; intros d; [done|].
  simpl. rewrite IH, filter_cons. destruct (decide (key x = k)) as [<-|Hne].
  - rewrite last_cons. destruct (last (filter _ xs)); [done|].
    rewrite dict_get_set. by rewrite decide_True.
  - destruct (last (filter _ xs)); [done|].
    rewrite dict_get_set. by rewrite decide_False.
Qed.




End odict_more.

(** ** The delta of one call *)

Section delta_facts.
Context `{client : ThreatExchangeClient}.
Implicit Types (self : FBThreatExchangeSignalExchangeAPI)
  (collab : FBThreatExchangeCollabConfig)
  (checkpoint : option FBThreatExchangeCheckpoint)
  (cursor : CursoredResponse) (page : list ThreatUpdateJSON).

(** X1. The delta of a call maps each (type, indicator) of the page to
    the record of the last update of the page with that key ([None] when
    that update is a tombstone or has no opinion), holds no other key, and
    reports [done] as the cursor stands after the page. *)
Theorem delta_last_update_wins now self collab cursor page cursor' :
  cursor_next cursor = (Ok page, cursor') →
  ∃ d, (fetch_page now self collab cursor).1 = Ok d
       ∧ done d = cursor_done cursor'
       ∧ NoDup (dict_keys (updates d))
       ∧ ∀ k, dict_get k (updates d)
              = from_threatexchange_json
                  <$> last (filter (λ u, (threat_type u, indicator u) = k) page).
Proof.
  intros Hnext. rewrite (fetch_page_delta _ _ _ _ _ _ Hnext). simpl.
  eexists. split; [done|]. simpl. split; [done|]. split.
  - apply dict_comprehension_acc_NoDup. constructor.
  - intros k. unfold dict_comprehension. rewrite dict_get_assignments.
    by destruct (last _).
Qed.

(** X2. A call for one collaboration leaves the cursor cached under any
    other name as it was, and the client object too, however it ends. *)
Theorem fetch_once_keeps_other_cursors now self
    (types : list SignalTypeRef) collab checkpoint (other : string) :
  other ≠ name (base collab) →
  cursors (fetch_once now self types collab checkpoint).2 !! other
  = cursors self !! other
  ∧ _api (fetch_once now self types collab checkpoint).2 = _api self.
Proof.
  intros Hne. unfold fetch_once, obtain_cursor.
  assert (∀ self' cursor,
            cursors self' !! other = cursors self !! other →
            _api self' = _api self →
            cursors (fetch_page now self' collab cursor).2 !! other
            = cursors self !! other
            ∧ _api (fetch_page now self' collab cursor).2 = _api self) as Hpage.
  { intros self' cursor Hc Ha. unfold fetch_page.
    destruct (cursor_next cursor) as [[page|e] cursor']; simpl.
    - destruct (scan_page page). simpl. by rewrite lookup_insert_ne.
    - by rewrite lookup_insert_ne. }
  destruct (cursors self !! name (base collab)) as [cursor|]; [by apply Hpage|].
  unfold api. destruct (_api self) as [a|] eqn:Ha; simpl; [|done].
  destruct (get_threat_updates _ _ _ _ _) as [cursor|e]; simpl; [|done].
  apply Hpage; simpl; [by rewrite lookup_insert_ne | done].
Qed.

(** X3. The two ways a call on a configured object can fail. If opening
    the stream raises, the call raises the same exception and the object
    is unchanged, so the next call opens the stream again. If reading the
    first page of a fresh cursor raises, the call raises the same
    exception with the cursor cached, and the next call reads from that
    cursor whatever checkpoint it is given. *)
Theorem fetch_once_failure_modes now self (types : list SignalTypeRef)
    collab checkpoint a e :
  cursors self !! name (base collab) = None →
  _api self = Some a →
  (get_threat_updates a (privacy_group collab) (update_time <$> checkpoint)
     500 ThreatUpdateJSON_fields = Raise e →
   fetch_once now self types collab checkpoint = (Raise e, self))
  ∧ (∀ fresh fresh',
       get_threat_updates a (privacy_group collab) (update_time <$> checkpoint)
         500 ThreatUpdateJSON_fields = Ok fresh →
       cursor_next fresh = (Raise e, fresh') →
       (fetch_once now self types collab checkpoint).1 = Raise e
       ∧ ∀ now' types' checkpoint',
           fetch_once now' (fetch_once now self types collab checkpoint).2
             types' collab checkpoint'
           = fetch_page now' (fetch_once now self types collab checkpoint).2
               collab fresh').
Proof.
  intros Hnone Ha. split.
  - intros Hraise. unfold fetch_once, obtain_cursor, api.
    rewrite Hnone, Ha. simpl. by rewrite Hraise.
  - intros fresh fresh' Hopen Hnext.
    assert (fetch_once now self types collab checkpoint
            = (Raise e,
               mkAPI (Some a)
                 (<[name (base collab) := fresh']>
                    (<[name (base collab) := fresh]> (cursors self))))) as ->.
    { unfold fetch_once, obtain_cursor, api. rewrite Hnone, Ha. simpl.
      rewrite Hopen. simpl. unfold fetch_page. by rewrite Hnext. }
    split; [done|]. intros now' types' checkpoint'. simpl.
    unfold fetch_once, obtain_cursor. simpl. by rewrite lookup_insert_eq.
Qed.

End delta_facts.

(** ** Checkpoints over time *)

Section staleness_facts.
Context `{client : ThreatExchangeClient}.
Local Open Scope Q_scope.

Lemma new_checkpoint_not_stale (now : Q) (t : Z) :
  is_stale now (new_checkpoint now t) = false.
Proof.
  unfold is_stale, new_checkpoint. simpl. apply negb_false_iff, Qle_bool_iff.
  destruct now as [n d].
  unfold int_of_float, Qle, Qminus, Qplus, Qopp, inject_Z. simpl.
  pose proof (Z.quot_rem' n (Z.pos d)) as Hqr.
  pose proof (Z.rem_bound_abs n (Z.pos d) ltac:(lia)) as Hb.
  rewrite Pos.mul_1_r. nia.
Qed.

(** X4. The checkpoint of a delta is stamped with the whole seconds of
    the clock reading of the call and is not stale at that reading. *)
Theorem fetched_checkpoint_is_fresh (now : Q)
    (self : FBThreatExchangeSignalExchangeAPI) (types : list SignalTypeRef)
    (collab : FBThreatExchangeCollabConfig)
    (ck : option FBThreatExchangeCheckpoint) d self' :
  fetch_once now self types collab ck = (Ok d, self') →
  last_fetch_time (checkpoint d) = int_of_float now
  ∧ is_stale now (checkpoint d) = false.
Proof.
  unfold fetch_once. destruct (obtain_cursor self collab ck) as [[c s]|e]; [|done].
  unfold fetch_page. destruct (cursor_next c) as [[page|e] c']; [|done].
  destruct (scan_page page) as [batch h]. intros [= <- _]. simpl.
  split; [done | apply new_checkpoint_not_stale].
Qed.

(** X5. Staleness only depends on [last_fetch_time] and, once reached,
    stays: a checkpoint stale at one clock reading is stale at every later
    one, and a checkpoint not stale was not stale earlier. *)
Theorem stale_stays_stale (now now' : Q) (c : FBThreatExchangeCheckpoint) :
  now <= now' →
  (is_stale now c = true → is_stale now' c = true)
  ∧ (is_stale now' c = false → is_stale now c = false)
  ∧ ∀ t, is_stale now (mkCheckpoint t (last_fetch_time c)) = is_stale now c.
Proof.
  intros Hle.
  assert (is_stale now c = true → is_stale now' c = true) as Hmono.
  { unfold is_stale. rewrite !negb_true_iff. intros Hs.
    destruct (Qle_bool (now' - _) _) eqn:Hb; [|done].
    apply Qle_bool_iff in Hb.
    assert (Qle_bool (now - inject_Z (last_fetch_time c))
              (inject_Z (3600 * 24 * 85)) = true); [|congruence].
    apply Qle_bool_iff. eapply Qle_trans; [|exact Hb].
    unfold Qminus. by apply Qplus_le_l. }
  split; [exact Hmono|]. split; [|done].
  intros Hn. destruct (is_stale now c); [|done].
  by rewrite Hmono in Hn.
Qed.

(** X6. On this class no write-back capability ever succeeds: the two
    report wrappers raise (the missing token, a failure of the own id, or
    [NotImplementedError] from [report_opinion]), and [report_opinion],
    [report_seen] and [resolve_owner] raise [NotImplementedError]. *)
Theorem write_back_never_succeeds
    (self : FBThreatExchangeSignalExchangeAPI)
    (collab : FBThreatExchangeCollabConfig) (s_type : SignalTypeRef)
    (signal : string) (metadata : FBThreatExchangeIndicatorRecord)
    (opinion : SignalOpinion) (id : Z) :
  is_ok (report_true_positive report_opinion self collab s_type signal metadata)
  = false
  ∧ is_ok (report_false_positive report_opinion self collab s_type signal
             metadata) = false
  ∧ (_api self = None →
     report_true_positive report_opinion self collab s_type signal metadata
     = Raise token_not_configured)
  ∧ report_opinion self collab s_type signal opinion = Raise NotImplementedError
  ∧ report_seen self collab s_type signal = Raise NotImplementedError
  ∧ resolve_owner self id = Raise NotImplementedError.
Proof.
  unfold report_true_positive, report_false_positive, get_own_owner_id, api.
  destruct (_api self) as [a|]; simpl.
  - destruct (app_id a); simpl; by repeat split.
  - by repeat split.
Qed.

End staleness_facts.

(** ** More on reconciliation *)

Section reconciliation_more.
Implicit Types (u : ThreatUpdateJSON) (td : DescriptorJSON) (o : Z).

Lemma NoDup_fmap_same {A B} (f : A → B) (l : list A) x y :
  NoDup (f <$> l) → x ∈ l → y ∈ l → f x = f y → x = y.
Proof.
  induction l as [|a l IH]; csimpl; intros Hnd Hx Hy Hf.
  - by apply elem_of_nil in Hx.
  - apply NoDup_cons in Hnd as [Ha Hnd].
    apply elem_of_cons in Hx as [->|Hx]; apply elem_of_cons in Hy as [->|Hy].
    + done.
    + exfalso. apply Ha. rewrite Hf. apply list_elem_of_fmap. by exists y.
    + exfalso. apply Ha. rewrite <- Hf. apply list_elem_of_fmap. by exists x.
    + by apply IH.
Qed.

Lemma filter_none {A} (P : A → Prop) `{!∀ x, Decision (P x)} (l : list A) :
  (∀ x, x ∈ l → ¬ P x) → filter P l = [].
Proof.
  induction l as [|a l IH]; intros Hl; [done|].
  rewrite filter_cons_False by (apply Hl, elem_of_cons; by left).
  apply IH. intros x Hx. apply Hl, elem_of_cons. by right.
Qed.

Lemma reconciled_owners_NoDup u : NoDup (owner <$> reconciled_opinions u).
Proof.
  unfold reconciled_opinions. set (f := filter _ _).
  assert (sublist f (implicit_by_owner u)) as Hsub by apply sublist_filter.
  rewrite fmap_app, explicit_by_owner_owners, <- list_fmap_compose.
  apply NoDup_app. split; [apply explicit_by_owner_NoDup|]. split.
  - intros o Ho Hin. apply list_elem_of_fmap in Hin as ([o' c] & -> & Hin).
    apply list_elem_of_filter in Hin as [Hout _]. by apply Hout.
  - change (NoDup (dict_keys f)). eapply sublist_NoDup.
    + apply implicit_by_owner_NoDup.
    + unfold dict_keys. by apply fmap_sublist.
Qed.

(** X7. When an owner has several descriptors in one update, the record
    holds the opinion built from the last of them, and no other opinion
    of that owner. *)
Theorem last_descriptor_of_owner_wins u r l1 td l2 :
  from_threatexchange_json u = Some r →
  descriptors_data u = l1 ++ td :: l2 →
  (∀ td', td' ∈ l2 → td_owner_id td' ≠ td_owner_id td) →
  descriptor_opinion td ∈ opinions r
  ∧ ∀ op, op ∈ opinions r → owner op = td_owner_id td →
          op = descriptor_opinion td.
Proof.
  intros Hr Hds Hlast. rewrite (record_opinions_reconciled _ _ Hr).
  assert (descriptor_opinion td ∈ reconciled_opinions u) as Hin.
  { unfold reconciled_opinions. apply elem_of_app. left.
    unfold dict_values. apply list_elem_of_fmap.
    exists (td_owner_id td, descriptor_opinion td). split; [done|].
    apply dict_get_elem. unfold explicit_by_owner, dict_comprehension.
    rewrite dict_get_assignments, Hds, filter_app, filter_cons.
    rewrite decide_True by done.
    assert (filter (λ x, td_owner_id x = td_owner_id td) l2 = []) as ->.
    { apply filter_none. intros td' Htd'. by apply Hlast. }
    by rewrite last_snoc. }
  split; [done|]. intros op Hop Hown.
  eapply NoDup_fmap_same;
    [apply reconciled_owners_NoDup | done | done | done].
Qed.

Lemma reaction_step_other d r o :
  rxn_value r ≠ o → dict_get o (reaction_step d r) = dict_get o d.
Proof.
  intros Hne. unfold reaction_step.
  destruct (bool_decide _); [by rewrite dict_get_set, decide_False|].
  destruct (_ && _); [by rewrite dict_get_set, decide_False | done].
Qed.

Lemma reaction_step_ignored d r :
  rxn_key r ≠ "HELPFUL" → rxn_key r ≠ "DISAGREE_WITH_TAGS" →
  reaction_step d r = d.
Proof.
  intros Hh Hd. unfold reaction_step.
  by rewrite !bool_decide_eq_false_2.
Qed.

Lemma reaction_step_disagree d o :
  reaction_step d (mkReaction "DISAGREE_WITH_TAGS" o)
  = if dict_mem o d then d else dict_set o FALSE_POSITIVE d.
Proof. unfold reaction_step. simpl. by destruct (dict_mem o d). Qed.

Lemma reactions_without_helpful_keep rs d o c :
  mkReaction "HELPFUL" o ∉ rs →
  dict_get o d = Some c →
  dict_get o (fold_left reaction_step rs d) = Some c.
Proof.
  revert d. induction rs as [|[k o'] rs IH]; intros d Hno Hd; [done|].
  apply not_elem_of_cons in Hno as [Hr Hno]. simpl. apply IH; [done|].
  destruct (decide (o' = o)) as [->|Hne];
    [|by rewrite reaction_step_other].
  destruct (decide (k = "DISAGREE_WITH_TAGS")) as [->|Hk].
  - rewrite reaction_step_disagree. unfold dict_mem. by rewrite Hd.
  - rewrite reaction_step_ignored; [done| |done]. simpl. congruence.
Qed.

Lemma reactions_disagree_only rs d o :
  mkReaction "HELPFUL" o ∉ rs →
  mkReaction "DISAGREE_WITH_TAGS" o ∈ rs →
  dict_get o d = None →
  dict_get o (fold_left reaction_step rs d) = Some FALSE_POSITIVE.
Proof.
  revert d. induction rs as [|[k o'] rs IH]; intros d Hno Hin Hd.
  - by apply elem_of_nil in Hin.
  - apply not_elem_of_cons in Hno as [Hr Hno]. simpl.
    destruct (decide (o' = o)) as [->|Hne].
    + destruct (decide (k = "DISAGREE_WITH_TAGS")) as [->|Hk].
      * apply reactions_without_helpful_keep; [done|].
        rewrite reaction_step_disagree. unfold dict_mem. rewrite Hd.
        rewrite dict_get_set. by rewrite decide_True.
      * apply elem_of_cons in Hin as [Heq|Hin]; [congruence|].
        apply IH; [done | done |].
        rewrite reaction_step_ignored; [done| |]; simpl; congruence.
    + apply elem_of_cons in Hin as [Heq|Hin]; [congruence|].
      apply IH; [done | done |]. by rewrite reaction_step_other.
Qed.

Lemma reactions_none rs d o :
  mkReaction "HELPFUL" o ∉ rs →
  mkReaction "DISAGREE_WITH_TAGS" o ∉ rs →
  dict_get o (fold_left reaction_step rs d) = dict_get o d.
Proof.
  revert d. induction rs as [|[k o'] rs IH]; intros d Hnh Hnd; [done|].
  apply not_elem_of_cons in Hnh as [Hh Hnh].
  apply not_elem_of_cons in Hnd as [Hd Hnd]. simpl. rewrite IH by done.
  destruct (decide (o' = o)) as [->|Hne];
    [|by rewrite reaction_step_other].
  rewrite reaction_step_ignored; [done| |]; simpl; congruence.
Qed.

(** X8. The implicit category of an owner is decided by the reactions
    of the whole update: [TRUE_POSITIVE] with a HELPFUL reaction,
    [FALSE_POSITIVE] with a DISAGREE_WITH_TAGS reaction and no HELPFUL one,
    and none at all when the owner's reactions have other keys only. *)
Theorem implicit_category_table u o :
  (has_reaction u "HELPFUL" o →
   dict_get o (collect_opinions u).2 = Some TRUE_POSITIVE)
  ∧ (¬ has_reaction u "HELPFUL" o →
     has_reaction u "DISAGREE_WITH_TAGS" o →
     dict_get o (collect_opinions u).2 = Some FALSE_POSITIVE)
  ∧ (¬ has_reaction u "HELPFUL" o →
     ¬ has_reaction u "DISAGREE_WITH_TAGS" o →
     dict_get o (collect_opinions u).2 = None).
Proof.
  rewrite collect_opinions_split. simpl. unfold has_reaction, implicit_by_owner.
  split; [by apply helpful_reaction_wins|]. split.
  - intros Hnh Hd. by apply reactions_disagree_only.
  - intros Hnh Hnd. by rewrite reactions_none.
Qed.

Lemma insert_sorted_HdRel s t l :
  string_le t s → HdRel string_le t l → HdRel string_le t (insert_sorted s l).
Proof.
  intros Hts Hl. destruct l as [|x l]; simpl; [by constructor|].
  destruct (String.leb s x); constructor; [done|].
  by apply HdRel_inv in Hl.
Qed.

Lemma insert_sorted_Sorted s l :
  Sorted string_le l → Sorted string_le (insert_sorted s l).
Proof.
  induction l as [|t l IH]; simpl; intros Hs; [by repeat constructor|].
  apply Sorted_inv in Hs as [Hs Hhd].
  destruct (String.leb s t) eqn:Hst.
  - constructor; [by constructor|]. by constructor.
  - constructor; [by apply IH|]. apply insert_sorted_HdRel; [|done].
    unfold string_le. destruct (String.leb_total s t); congruence.
Qed.

Lemma insert_sorted_Permutation s l : insert_sorted s l ≡ₚ s :: l.
Proof.
  induction l as [|t l IH]; simpl; [done|].
  destruct (String.leb s t); [done|]. rewrite IH. apply Permutation_swap.
Qed.

(** X9. Tags that arrive in the untransformed [{"data": ...}] form are
    stored as the same texts in ascending order; a plain list is stored
    as it is. *)
Theorem descriptor_tags_normalised td :
  match td_tags td with
  | Some (TagsDict texts) =>
      ∃ l, tags (descriptor_opinion td) = TagList l
           ∧ Sorted string_le l ∧ l ≡ₚ texts
  | Some (TagsPlain l) => tags (descriptor_opinion td) = TagList l
  | None => tags (descriptor_opinion td) = TagList []
  end.
Proof.
  unfold descriptor_opinion. simpl.
  destruct (td_tags td) as [[l|texts]|]; [done| |done].
  exists (Py.sorted texts). split; [done|]. unfold Py.sorted.
  induction texts as [|s texts [IHs IHp]]; simpl; [by repeat constructor|].
  split; [by apply insert_sorted_Sorted|].
  by rewrite insert_sorted_Permutation, IHp.
Qed.

End reconciliation_more.

(** ** Loading, updating and deleting collab configs *)

Section store_more.
Import store_notions.
Context `{codec : ConfigCodec}.
Implicit Types (self : CliState) (fs : list (string * Node))
  (cfgs ret : list CollaborationConfigBase) (entry : string * Node).

Lemma load_entry_Ok self ret entry ret' :
  load_entry self ret entry = Ok ret' →
  ret' = ret ∨ ∃ c, ret' = ret ++ [c] ∧ loads_as self entry c.
Proof.
  unfold load_entry, loads_as. destruct entry as [fname [text|]]; simpl.
  - destruct (json_load text) as [content|] eqn:Hj; [|intros [= <-]; by left].
    destruct (content_api content) as [a|] eqn:Ha; simpl;
      [|intros [= <-]; by left].
    destruct (_name_to_ctype self !! a) as [ctype|] eqn:Hc;
      [|intros [= <-]; by left].
    destruct (dataclass_load_dict content ctype) as [c| |e] eqn:Hl;
      [|intros [= <-]; by left|done].
    intros [= <-]. right. exists c. split; [done|].
    exists text, content, a, ctype. by rewrite Ha.
  - intros [= <-]. by left.
Qed.



Lemma load_entries_Ok self entries ret ret' :
  load_entries self entries ret = Ok ret' →
  ∀ c, c ∈ ret' → c ∈ ret ∨ ∃ entry, entry ∈ entries ∧ loads_as self entry c.
Proof.
  revert ret. induction entries as [|entry entries IH]; intros ret; simpl.
  - intros [= <-] c Hc. by left.
  - destruct (load_entry self ret entry) as [ret1|e] eqn:H1; [|done]. simpl.
    intros Hrest c Hc. destruct (IH _ Hrest c Hc) as [Hin|(en & Hen & Hl)].
    + apply load_entry_Ok in H1 as [->|(c1 & -> & Hl)]; [by left|].
      apply elem_of_app in Hin as [Hin|Hin]; [by left|].
      apply list_elem_of_singleton in Hin as ->. right.
      exists entry. split; [apply elem_of_cons; by left | done].
    + right. exists en. split; [apply elem_of_cons; by right | done].
Qed.





Lemma glob_json_elem fs entry :
  entry ∈ glob_json fs ↔ ends_with ".json" entry.1 = true ∧ entry ∈ fs.
Proof.
  unfold glob_json.
  exact (list_elem_of_filter (λ e, ends_with ".json" e.1 = true) fs entry).
Qed.

(** The values of a dictionary keyed by name, among the source. *)
Lemma cache_values_from (ret : list CollaborationConfigBase) c :
  c ∈ dict_values (dict_comprehension name id ret) → c ∈ ret.
Proof.
  unfold dict_values. intros Hc.
  apply list_elem_of_fmap in Hc as ([k c'] & -> & Hin).
  apply dict_comprehension_acc_elem in Hin as [Hin|(x & Hx & [= _ ->])]; [|done].
  by apply elem_of_nil in Hin.
Qed.

(** X10. The first load returns one config per collaboration name, and
    each of them was converted from a regular file of the directory whose
    name ends in [.json]. *)
Theorem loaded_collabs_are_distinct_files self fs cfgs self' :
  _cache self = None →
  get_all_collabs self fs = (Ok cfgs, self') →
  NoDup (name <$> cfgs)
  ∧ ∀ c, c ∈ cfgs →
      ∃ entry, entry ∈ fs ∧ ends_with ".json" entry.1 = true
               ∧ loads_as self entry c.
Proof.
  intros Hnone. unfold get_all_collabs. rewrite Hnone.
  destruct (load_entries self (glob_json fs) []) as [ret|e] eqn:Hload; [|done].
  intros [= <- _]. split.
  - rewrite <- cache_keys_are_names.
    apply dict_comprehension_acc_NoDup. constructor.
  - intros c Hc. apply cache_values_from in Hc.
    destruct (load_entries_Ok _ _ _ _ Hload c Hc) as [Hin|(entry & Hen & Hl)].
    + by apply elem_of_nil in Hin.
    + apply glob_json_elem in Hen as [Hjson Hen]. by exists entry.
Qed.


(** X12. [get_collab] answers from what [get_all_collabs] returns: the
    config it gives is one of them and has the name asked for, and it
    gives [None] only when no config has that name. *)
Theorem get_collab_finds_by_name self fs cfgs self' (n : string) :
  get_all_collabs self fs = (Ok cfgs, self') →
  ∃ r, get_collab self fs n = (Ok r, self')
       ∧ match r with
         | Some c => c ∈ cfgs ∧ name c = n
         | None => n ∉ (name <$> cfgs)
         end.
Proof.
  intros Hget. unfold get_collab. rewrite Hget. simpl.
  eexists. split; [done|].
  destruct (head (filter (λ c, name c = n) cfgs)) as [c|] eqn:Hh.
  - apply head_Some_elem_of, list_elem_of_filter in Hh as [Hn Hc]. done.
  - apply head_None in Hh. intros Hin.
    apply list_elem_of_fmap in Hin as (c & -> & Hc).
    eapply filter_nil_not_elem_of; [exact Hh| |exact Hc]. done.
Qed.

End store_more.

Section store_files.
Import store_notions.
Context `{codec : ConfigCodec}.
Implicit Types (self : CliState) (fs : list (string * Node))
  (collab : CollaborationConfigBase).









End store_files.

(** ** CLISettings *)

Section settings_facts.
Import cli_settings.
Context `{codec : ConfigCodec} `{filecodec : ConfigFileCodec}.
Context {Fetcher : Type} `{!FetcherLike Fetcher}.
Variable sample_name : string.
Implicit Types (self : @CLISettings codec Fetcher) (disk : Disk)
  (err : list string).

Lemma settings_get_all_collabs_frame self b disk r self' printed :
  cli_settings.get_all_collabs sample_name self b disk = (r, self', printed) →
  _config self' = _config self
  ∧ _mapping self' = _mapping self
  ∧ ((printed = [] ∧ _sample_message_printed self' = _sample_message_printed self)
     ∨ (printed = [sample_message] ∧ _sample_message_printed self = false
        ∧ _sample_message_printed self' = true))
  ∧ (b = true → ∀ l, r = Ok l → l ≠ [])
  ∧ (b = false →
     printed = []
     ∧ r = (cli.get_all_collabs (_state self) (collab_configs disk)).1).
Proof.
  unfold cli_settings.get_all_collabs.
  destruct (cli.get_all_collabs (_state self) (collab_configs disk))
    as [[cs|e] st]; simpl.
  - destruct cs as [|c cs].
    + destruct b.
      * unfold _get_sample_collab.
        destruct (_sample_message_printed self) eqn:Hp; simpl;
          intros [= <- <- <-]; simpl.
        -- split; [done|]. split; [done|]. split; [by left|].
           split; [intros _ l [= <-]; done | done].
        -- split; [done|]. split; [done|]. split; [by right|].
           split; [intros _ l [= <-]; done | done].
      * intros [= <- <- <-]. simpl.
        split; [done|]. split; [done|]. split; [by left|]. by split.
    + intros [= <- <- <-]. simpl.
      split; [done|]. split; [done|]. split; [by left|].
      split; [intros _ l [= <-]; done | done].
  - intros [= <- <- <-]. simpl.
    split; [done|]. split; [done|]. split; [by left|]. by split.
Qed.

(** X16. Once the settings hold a config (after a first successful
    [get_persistent_config], or any [set_persistent_config]), every
    [get_persistent_config] returns the config set last, or the held one
    when none was set since, whatever happens to the file in between. *)
Theorem persistent_config_follows_last_set self (c : CLiConfig)
    (ops : list SettingsOp) disk err :
  _config self = Some c →
  config_answers (settings_run sample_name ops (self, disk, err)).1
  = expected_configs c ops.
Proof.
  revert self c disk err.
  induction ops as [|op ops IH]; intros self c disk err Hc; [done|].
  cbn [settings_run]. destruct op as [|c'|b|disk']; cbn [settings_step].
  - unfold get_persistent_config. rewrite Hc.
    specialize (IH self c disk err Hc).
    destruct (settings_run sample_name ops (self, disk, err)) as [answers w].
    simpl in *. by rewrite IH.
  - unfold set_persistent_config.
    set (self' := mkCLISettings _ _ _ (Some c')).
    set (disk' := state_update_persistent_config _ _ _).
    specialize (IH self' c' disk' err eq_refl).
    destruct (settings_run sample_name ops (self', disk', err)) as [answers w].
    simpl in *. by rewrite IH.
  - destruct (cli_settings.get_all_collabs sample_name self b disk)
      as [[r self'] printed] eqn:Hget.
    destruct (settings_get_all_collabs_frame _ _ _ _ _ _ Hget) as (Hcfg & _).
    specialize (IH self' c disk (err ++ printed) ltac:(congruence)).
    destruct (settings_run sample_name ops (self', disk, err ++ printed))
      as [answers w].
    simpl in *. by rewrite IH.
  - specialize (IH self c disk' err Hc).
    destruct (settings_run sample_name ops (self, disk', err)) as [answers w].
    simpl in *. by rewrite IH.
Qed.

(** The first read loads the file and holds what it loaded; a set writes
    the dumped config to the file. *)
Lemma persistent_config_first_read self disk c self' :
  _config self = None →
  get_persistent_config self disk = (Ok c, self') →
  dataclass_load_file (config_json disk) default_CLiConfig = Ok c
  ∧ _config self' = Some c.
Proof.
  intros Hnone. unfold get_persistent_config, state_get_persistent_config.
  rewrite Hnone. destruct (dataclass_load_file _ _) as [c'|e]; [|done].
  by intros [= <- <-].
Qed.

(** X17. Over any history of calls on one settings object, the notice
    about the sample collaboration reaches stderr at most once, and not at
    all when it was printed before; and a [get_all_collabs] asked to
    default to the sample never returns an empty list. *)
Theorem sample_notice_printed_once (ops : list SettingsOp) self disk err :
  let res := settings_run sample_name ops (self, disk, err) in
  (∃ printed,
     res.2.2 = err ++ printed
     ∧ (printed = []
        ∨ (printed = [sample_message] ∧ _sample_message_printed self = false)))
  ∧ Forall2
      (λ op a, op = SGetAllCollabs true →
               ∀ l, a = SAnsCollabs (Ok l) → l ≠ [])
      ops res.1.
Proof.
  intros res. subst res. revert self disk err.
  induction ops as [|op ops IH]; intros self disk err.
  - simpl. split; [|constructor]. exists []. rewrite app_nil_r. auto.
  - cbn [settings_run]. destruct op as [|c'|b|disk']; cbn [settings_step].
    + destruct (get_persistent_config self disk) as [r self'] eqn:Hg.
      assert (_sample_message_printed self' = _sample_message_printed self)
        as Hflag.
      { unfold get_persistent_config in Hg.
        destruct (_config self); [by injection Hg as <- <-|].
        destruct (state_get_persistent_config _ _); by injection Hg as <- <-. }
      destruct (IH self' disk err) as [(printed & Herr & Hp) Hall].
      destruct (settings_run sample_name ops (self', disk, err))
        as [answers w]. simpl in *.
      split; [|constructor; [done | done]].
      exists printed. rewrite <- Hflag. auto.
    + unfold set_persistent_config.
      set (self' := mkCLISettings _ _ _ (Some c')).
      set (disk' := state_update_persistent_config _ _ _).
      destruct (IH self' disk' err) as [(printed & Herr & Hp) Hall].
      destruct (settings_run sample_name ops (self', disk', err))
        as [answers w]. simpl in *.
      split; [|constructor; [done | done]]. exists printed. auto.
    + destruct (cli_settings.get_all_collabs sample_name self b disk)
        as [[r self'] printed1] eqn:Hget.
      destruct (settings_get_all_collabs_frame _ _ _ _ _ _ Hget)
        as (_ & _ & Hprint & Hne & _).
      destruct (IH self' disk (err ++ printed1)) as [(printed2 & Herr & Hp) Hall].
      destruct (settings_run sample_name ops (self', disk, err ++ printed1))
        as [answers w]. simpl in *.
      split.
      * exists (printed1 ++ printed2). rewrite Herr, app_assoc.
        split; [done|].
        destruct Hprint as [[-> Hflag]|(-> & Hfalse & Htrue)].
        -- simpl. rewrite <- Hflag. exact Hp.
        -- destruct Hp as [->|[_ Hcontra]]; [|congruence]. right. done.
      * constructor; [|done]. intros [= ->] l [= ->]. by apply Hne.
    + destruct (IH self disk' err) as [(printed & Herr & Hp) Hall].
      destruct (settings_run sample_name ops (self, disk', err))
        as [answers w]. simpl in *.
      split; [|constructor; [done | done]]. exists printed. auto.
Qed.

(** X18. [get_collabs_for_fetcher] returns exactly the stored configs
    whose [api] is the fetcher's name; it never substitutes the sample
    collaboration and prints nothing. *)
Theorem collabs_for_fetcher_are_the_stored_ones self (fetcher : Fetcher) disk :
  let res := get_collabs_for_fetcher sample_name self fetcher disk in
  res.2 = []
  ∧ _sample_message_printed res.1.2 = _sample_message_printed self
  ∧ match (cli.get_all_collabs (_state self) (collab_configs disk)).1 with
    | Ok cs =>
        ∃ l, res.1.1 = Ok l
             ∧ ∀ c, c ∈ l ↔ c ∈ cs ∧ api_name c = get_name fetcher
    | Raise e => res.1.1 = Raise e
    end.
Proof.
  intros res. subst res. unfold get_collabs_for_fetcher.
  destruct (cli_settings.get_all_collabs sample_name self false disk)
    as [[r self'] printed] eqn:Hget.
  destruct (settings_get_all_collabs_frame _ _ _ _ _ _ Hget)
    as (_ & _ & Hprint & _ & Hplain).
  destruct (Hplain eq_refl) as [Hnil Hres]. simpl in *. subst printed.
  split; [done|]. split.
  - destruct Hprint as [[_ ?]|[? _]]; done.
  - rewrite <- Hres. destruct r as [cs|e]; simpl; [|done].
    eexists. split; [done|]. intros c. rewrite list_elem_of_filter. tauto.
Qed.

End settings_facts.

(** ** The app token of the CLI *)

Section token_facts.
Import cli_settings main.
Context `{tokens : AppTokens}.
Implicit Types (env : Environment) (config : CLiConfig)
  (sources : list (option string * string)).

Lemma truthy_Some (val : option string) :
  truthy val = true ↔ ∃ raw, val = Some raw ∧ raw ≠ "".
Proof.
  unfold truthy. destruct val as [s|].
  - rewrite negb_true_iff, bool_decide_eq_false. split.
    + intros Hs. by exists s.
    + by intros (raw & [= ->] & Hraw).
  - split; [done | by intros (raw & ? & _)].
Qed.

Lemma scan_sources_Some sources v ws :
  scan_sources sources = (Some v, ws) →
  is_valid_app_token v = true ∧ ws = []
  ∧ ∃ raw source, (Some raw, source) ∈ sources ∧ raw ≠ "" ∧ v = strip raw.
Proof.
  induction sources as [|[val source] sources IH]; simpl; [done|].
  destruct (truthy val) eqn:Ht; simpl.
  - apply truthy_Some in Ht as (raw & -> & Hraw). simpl.
    destruct (is_valid_app_token (strip raw)) eqn:Hv; [|done].
    intros [= <- <-]. split; [done|]. split; [done|].
    exists raw, source. split; [apply elem_of_cons; by left | done].
  - intros Hrest. destruct (IH Hrest) as (Hv & Hws & raw & src & Hin & Hr & Hs).
    split; [done|]. split; [done|].
    exists raw, src. split; [apply elem_of_cons; by right | done].
Qed.

(** X19. A token returned by [_get_fb_tx_app_token] is valid, is the
    stripped text of a non-empty source (the environment variable, the
    config or the token file), and comes without a warning. *)
Theorem app_token_is_valid_and_from_a_source env config v ws :
  _get_fb_tx_app_token env config = (Some v, ws) →
  is_valid_app_token v = true ∧ ws = []
  ∧ ∃ raw, raw ≠ "" ∧ v = strip raw
           ∧ (TX_ACCESS_TOKEN env = Some raw
              ∨ fb_threatexchange_api_token config = Some raw
              ∨ file_text env = Some raw).
Proof.
  intros Hget. apply scan_sources_Some in Hget
    as (Hv & Hws & raw & src & Hin & Hraw & Hs).
  split; [done|]. split; [done|]. exists raw. split; [done|]. split; [done|].
  unfold potential_sources in Hin.
  apply elem_of_cons in Hin as [[= <- _]|Hin]; [by left|].
  apply elem_of_cons in Hin as [[= <- _]|Hin]; [right; by left|].
  apply list_elem_of_singleton in Hin as [= <- _]. right. by right.
Qed.


(** X21. [None] comes without a warning exactly when the three sources
    are all unset or empty; in every other case of [None] exactly one
    warning is printed. *)
Theorem silent_none_iff_no_source env config :
  (_get_fb_tx_app_token env config = (None, [])
   ↔ truthy (TX_ACCESS_TOKEN env) = false
     ∧ truthy (fb_threatexchange_api_token config) = false
     ∧ truthy (file_text env) = false)
  ∧ ((_get_fb_tx_app_token env config).1 = None →
     (length (_get_fb_tx_app_token env config).2 ≤ 1)%nat).
Proof.
  unfold _get_fb_tx_app_token, potential_sources. cbn [scan_sources].
  destruct (truthy (TX_ACCESS_TOKEN env)); simpl.
  { destruct (is_valid_app_token _); simpl;
      (split; [split; [done | by intros [? _]] | intros; lia]). }
  destruct (truthy (fb_threatexchange_api_token config)); simpl.
  { destruct (is_valid_app_token _); simpl;
      (split; [split; [done | by intros (_ & ? & _)] | intros; lia]). }
  destruct (truthy (file_text env)); simpl.
  { destruct (is_valid_app_token _); simpl;
      (split; [split; [done | by intros (_ & _ & ?)] | intros; lia]). }
  split; [done | intros; lia].
Qed.

(** X22. When no token is found, the ThreatExchange fetcher the CLI
    builds is the unconfigured one: every [fetch_once] and
    [get_own_owner_id] on it raises "App Developer token not configured."
    and leaves it unchanged. With a token, the client is built from it. *)
Theorem cli_fetcher_without_token_cannot_fetch
    `{client : ThreatExchangeClient} env config :
  ((_get_fb_tx_app_token env config).1 = None →
   ∀ c : Call,
     raised token_not_configured (call_step c (fb_fetcher env config)).1
     ∧ (call_step c (fb_fetcher env config)).2 = fb_fetcher env config)
  ∧ (∀ v, (_get_fb_tx_app_token env config).1 = Some v →
          _api (fb_fetcher env config) = Some (new_api v)
          ∧ is_valid_app_token v = true).
Proof.
  unfold fb_fetcher. split.
  - intros -> c. rewrite unconfigured_call_fails. by destruct c.
  - intros v Hv. rewrite Hv. split; [done|].
    destruct (_get_fb_tx_app_token env config) as [tok ws] eqn:Hget.
    simpl in Hv. subst tok. by apply scan_sources_Some in Hget as [? _].
Qed.

End token_facts.

(** ** The hash command *)

Section hash_facts.
Import cli_settings hash_cmd hash_notions.
Context `{strings : PyStrings} `{codec : ConfigCodec} {Fetcher : Type}.
Implicit Types (self : HashCommand) (settings : @CLISettings codec Fetcher)
  (hashers : list (string * (string → result string)))
  (inputs : list HashInput).

Lemma hash_one_lines inp hashers out r line :
  hash_one inp hashers = (out, r) → line ∈ out →
  ∃ n f h, (n, f) ∈ hashers ∧ f inp = Ok h ∧ h ≠ ""
           ∧ line = n +:+ " " +:+ h.
Proof.
  revert out r. induction hashers as [|[n f] hashers IH]; intros out r; simpl.
  - intros [= <- _] Hin. by apply elem_of_nil in Hin.
  - destruct (f inp) as [h|e] eqn:Hf.
    + destruct (hash_one inp hashers) as [out' r'] eqn:Hrest.
      intros [= <- _] Hin. apply elem_of_app in Hin as [Hin|Hin].
      * destruct (bool_decide (h = "")) eqn:Hh; [by apply elem_of_nil in Hin|].
        apply list_elem_of_singleton in Hin as ->.
        apply bool_decide_eq_false in Hh.
        exists n, f, h. split; [apply elem_of_cons; by left | done].
      * destruct (IH _ _ eq_refl Hin) as (n' & f' & h' & Hin' & ?).
        exists n', f', h'. split; [apply elem_of_cons; by right | done].
    + intros [= <- _] Hin. by apply elem_of_nil in Hin.
Qed.

Lemma hash_all_lines fh sh inputs out r rest line :
  hash_all fh sh inputs = (out, r, rest) → line ∈ out →
  ∃ inp n f h,
    inp ∈ inputs ∧ h ≠ "" ∧ line = n +:+ " " +:+ h
    ∧ match inp with
      | InText t => (n, f) ∈ sh ∧ f t = Ok h
      | InPath p => (n, f) ∈ fh ∧ f p = Ok h
      end.
Proof.
  revert out r rest.
  induction inputs as [|inp inputs IH]; intros out r rest; simpl.
  - intros [= <- _ _] Hin. by apply elem_of_nil in Hin.
  - destruct (match inp with
              | InText t => hash_one t sh
              | InPath p => hash_one p fh
              end) as [out1 r1] eqn:H1.
    assert (∀ line, line ∈ out1 →
              ∃ n f h, h ≠ "" ∧ line = n +:+ " " +:+ h
                ∧ match inp with
                  | InText t => (n, f) ∈ sh ∧ f t = Ok h
                  | InPath p => (n, f) ∈ fh ∧ f p = Ok h
                  end) as Hfirst.
    { intros l Hl. destruct inp as [t|p];
        destruct (hash_one_lines _ _ _ _ _ H1 Hl) as (n & f & h & ? & ? & ? & ?);
        by exists n, f, h. }
    destruct r1 as [[]|e].
    + destruct (hash_all fh sh inputs) as [[out2 r2] rest2] eqn:H2.
      intros [= <- _ _] Hin. apply elem_of_app in Hin as [Hin|Hin].
      * destruct (Hfirst _ Hin) as (n & f & h & ? & ? & ?).
        exists inp, n, f, h. split; [apply elem_of_cons; by left | done].
      * destruct (IH _ _ _ eq_refl Hin) as (inp' & n & f & h & Hin' & ?).
        exists inp', n, f, h. split; [apply elem_of_cons; by right | done].
    + intros [= <- _ _] Hin.
      destruct (Hfirst _ Hin) as (n & f & h & ? & ? & ?).
      exists inp, n, f, h. split; [apply elem_of_cons; by left | done].
Qed.

Lemma file_hashers_of_elem (types : list SignalTypeCls) n f :
  (n, f) ∈ file_hashers_of types
  → ∃ s, s ∈ types ∧ n = st_name s ∧ hash_from_file s = Some f.
Proof.
  unfold file_hashers_of. rewrite list_elem_of_omap.
  intros (s & Hs & Hf). exists s. split; [done|].
  destruct (hash_from_file s) as [f'|]; [|done]. by injection Hf as <- <-.
Qed.

Lemma str_hashers_of_elem (types : list SignalTypeCls) n f :
  (n, f) ∈ str_hashers_of types
  → ∃ s, s ∈ types ∧ n = st_name s ∧ hash_from_str s = Some f.
Proof.
  unfold str_hashers_of. rewrite list_elem_of_omap.
  intros (s & Hs & Hf). exists s. split; [done|].
  destruct (hash_from_str s) as [f'|]; [|done]. by injection Hf as <- <-.
Qed.

(** X23. Every line the hash command prints is the name of a signal
    type and a non-empty hash: the signal type is one registered for the
    command's content type and passes the [--signal-type] filter, and the
    hash is what that type's text hasher gave for a text input, or its
    file hasher for a path input. *)
Theorem hash_lines_are_selected_hashes self settings out r self' line :
  execute self settings = (out, r, self') → line ∈ out →
  ∃ content_type types s h inp,
    get_content_type settings (content_type_str self) = Done content_type
    ∧ get_signal_types_for_content settings content_type = Done types
    ∧ s ∈ types ∧ selected (signal_type self) s = true
    ∧ inp ∈ input_generator self
    ∧ h ≠ "" ∧ line = st_name s +:+ " " +:+ h
    ∧ match inp with
      | InText t => ∃ f, hash_from_str s = Some f ∧ f t = Ok h
      | InPath p => ∃ f, hash_from_file s = Some f ∧ f p = Ok h
      end.
Proof.
  unfold execute.
  destruct (get_content_type settings (content_type_str self))
    as [ct|e] eqn:Hct; [|intros [= <- _ _] Hin; by apply elem_of_nil in Hin].
  destruct (get_signal_types_for_content settings ct)
    as [types|e] eqn:Hty; [|intros [= <- _ _] Hin; by apply elem_of_nil in Hin].
  set (all := filter _ types).
  destruct (hash_all _ _ _) as [[out' r'] rest] eqn:Hall.
  intros [= <- _ _] Hin.
  destruct (hash_all_lines _ _ _ _ _ _ _ Hall Hin)
    as (inp & n & f & h & Hinp & Hh & Hline & Hm).
  assert (∀ s, s ∈ all → s ∈ types ∧ selected (signal_type self) s = true)
    as Hsel.
  { intros s Hs. apply list_elem_of_filter in Hs. tauto. }
  destruct inp as [t|p]; destruct Hm as [Hm Hf].
  - apply str_hashers_of_elem in Hm as (s & Hs & -> & Hfs).
    destruct (Hsel s Hs). exists ct, types, s, h, (InText t).
    split_and!; try done. by exists f.
  - apply file_hashers_of_elem in Hm as (s & Hs & -> & Hfs).
    destruct (Hsel s Hs). exists ct, types, s, h, (InPath p).
    split_and!; try done. by exists f.
Qed.





End hash_facts.

Section hash_independence.
Import cli_settings hash_cmd hash_notions.
Context `{strings : PyStrings} `{codec : ConfigCodec} {Fetcher : Type}.
Implicit Types (self : HashCommand) (settings : @CLISettings codec Fetcher)
  (f : SignalTypeCls → SignalTypeCls) (inputs : list HashInput).

Lemma dict_get_map_values {V W} (g : V → W) (d : list (string * V)) k :
  dict_get k ((λ kv : string * V, (kv.1, g kv.2)) <$> d) = g <$> dict_get k d.
Proof.
  induction d as [|[k0 v0] d IH]; csimpl; [done|].
  by destruct (decide (k = k0)).
Qed.

Lemma filter_selected_fmap f (st : option string) (types : list SignalTypeCls) :
  (∀ s, st_name (f s) = st_name s) →
  filter (λ s, selected st s = true) (f <$> types)
  = f <$> filter (λ s, selected st s = true) types.
Proof.
  intros Hname. induction types as [|s types IH]; csimpl; [done|].
  rewrite !filter_cons, IH.
  assert (selected st (f s) = selected st s) as ->.
  { unfold selected. destruct st; [|done]. by rewrite Hname. }
  by destruct (decide (selected st s = true)).
Qed.

Lemma str_hashers_of_fmap f (types : list SignalTypeCls) :
  (∀ s, st_name (f s) = st_name s) →
  (∀ s, hash_from_str (f s) = hash_from_str s) →
  str_hashers_of (f <$> types) = str_hashers_of types.
Proof.
  intros Hname Hstr. unfold str_hashers_of.
  induction types as [|s types IH]; csimpl; [done|].
  by rewrite Hname, Hstr, IH.
Qed.

Lemma file_hashers_of_fmap f (types : list SignalTypeCls) :
  (∀ s, st_name (f s) = st_name s) →
  (∀ s, hash_from_file (f s) = hash_from_file s) →
  file_hashers_of (f <$> types) = file_hashers_of types.
Proof.
  intros Hname Hfile. unfold file_hashers_of.
  induction types as [|s types IH]; csimpl; [done|].
  by rewrite Hname, Hfile, IH.
Qed.

Lemma hash_all_text fh fh' sh inputs :
  Forall is_text inputs → hash_all fh sh inputs = hash_all fh' sh inputs.
Proof.
  induction 1 as [|[t|p] inputs Ht _ IH]; simpl; [done| |done].
  by rewrite IH.
Qed.

Lemma hash_all_path fh sh sh' inputs :
  Forall is_path inputs → hash_all fh sh inputs = hash_all fh sh' inputs.
Proof.
  induction 1 as [|[t|p] inputs Ht _ IH]; simpl; [done|done|].
  by rewrite IH.
Qed.

Lemma parse_input_kind (input_ : list string) :
  Forall is_text (_parse_input input_ true)
  ∧ Forall is_path (_parse_input input_ false).
Proof.
  unfold _parse_input. split; apply Forall_fmap, Forall_forall; done.
Qed.

Lemma execute_with_signal_types f self settings :
  (∀ s, st_name (f s) = st_name s) →
  execute self (with_signal_types f settings)
  = match get_content_type settings (content_type_str self) with
    | Failed e => ([], Failed e, self)
    | Done content_type =>
        match get_signal_types_for_content settings content_type with
        | Failed e => ([], Failed e, self)
        | Done types =>
            let all := f <$> filter (λ s, selected (signal_type self) s = true)
                               types in
            let '(out, r, rest) :=
              hash_all (file_hashers_of all) (str_hashers_of all)
                       (input_generator self) in
            (out,
             match r with Ok _ => Done () | Raise e => Failed (PyExc e) end,
             mkHashCommand (content_type_str self) (signal_type self) rest)
        end
    end.
Proof.
  intros Hname. unfold execute, get_content_type, get_signal_types_for_content.
  unfold with_signal_types. simpl.
  destruct (subscript (content_by_name (_mapping settings)) _) as [ct|e];
    [|done].
  unfold subscript. rewrite dict_get_map_values.
  destruct (dict_get ct (signal_type_by_content (_mapping settings)))
    as [types|]; simpl; [|done].
  by rewrite filter_selected_fmap.
Qed.

(** X25. With [--as-text] no file hasher is ever called, and without it
    no text hasher: replacing, in every signal type, the hasher of the
    other kind by anything at all leaves the printed lines, the outcome
    and the command unchanged. *)
Theorem inputs_reach_only_their_kind_of_hasher f (stdin : list string)
    (content_type : string) (signal_type : option string)
    (content : list string) settings :
  (∀ s, st_name (f s) = st_name s) →
  ((∀ s, hash_from_str (f s) = hash_from_str s) →
   execute (__init__ stdin content_type signal_type true content)
     (with_signal_types f settings)
   = execute (__init__ stdin content_type signal_type true content) settings)
  ∧ ((∀ s, hash_from_file (f s) = hash_from_file s) →
     execute (__init__ stdin content_type signal_type false content)
       (with_signal_types f settings)
     = execute (__init__ stdin content_type signal_type false content)
         settings).
Proof.
  intros Hname. split; intros Hkeep;
    rewrite execute_with_signal_types by done; unfold execute;
    (destruct (get_content_type settings _) as [ct|e]; [|done]);
    (destruct (get_signal_types_for_content settings ct) as [types|e];
       [|done]); cbv zeta.
  - rewrite str_hashers_of_fmap by done.
    rewrite (hash_all_text _ (file_hashers_of
               (filter (λ s, selected signal_type s = true) types)));
      [done|]. apply parse_input_kind.
  - rewrite file_hashers_of_fmap by done.
    rewrite (hash_all_path _ _ (str_hashers_of
               (filter (λ s, selected signal_type s = true) types)));
      [done|]. apply parse_input_kind.
Qed.

End hash_independence.

(** ** Concrete instances of the properties above *)

Lemma delta_last_update_wins_witness :
  let page := [sample_update 5 "a"; mkUpdate true "HASH_PDQ" "a" 6 []] in
  let self := configured_api [page] in
  cursor_next (ThreatExchangeClient := paged_client 42 [page]) [page]
  = (Ok page, [])
  ∧ ∃ d, (fetch_page 0%Q self sample_collab [page]).1 = Ok d
         ∧ done d = true
         ∧ NoDup (dict_keys (updates d))
         ∧ ∀ k, dict_get k (updates d)
                = from_threatexchange_json
                    <$> last (filter (λ u, (threat_type u, indicator u) = k)
                                page).
Proof.
  intros page self. split; [reflexivity|].
  apply (delta_last_update_wins (client := paged_client 42 [page])
           0%Q self sample_collab [page] page []).
  reflexivity.
Defined.

Lemma fetch_once_keeps_other_cursors_witness :
  let self := configured_api ordered_pages in
  "Other" ≠ name (base sample_collab)
  ∧ cursors (fetch_once 0%Q self [] sample_collab None).2 !! "Other"
    = cursors self !! "Other"
  ∧ _api (fetch_once 0%Q self [] sample_collab None).2 = _api self.
Proof.
  intros self.
  assert ("Other" ≠ name (base sample_collab)) as Hne by discriminate.
  split; [exact Hne|].
  exact (fetch_once_keeps_other_cursors
           (client := paged_client 42 ordered_pages)
           0%Q self [] sample_collab None "Other" Hne).
Defined.

Lemma fetch_once_failure_modes_witness :
  let self := configured_api [] in
  cursors self !! name (base sample_collab) = None
  ∧ _api self = Some "42|secret"
  ∧ (fetch_once 0%Q self [] sample_collab None).1
    = Raise (ApiError "no next page")
  ∧ ∀ ck, fetch_once 1%Q (fetch_once 0%Q self [] sample_collab None).2 []
            sample_collab ck
          = fetch_page 1%Q (fetch_once 0%Q self [] sample_collab None).2
              sample_collab [].
Proof.
  intros self. split; [reflexivity|]. split; [reflexivity|].
  destruct (fetch_once_failure_modes (client := paged_client 42 [])
              0%Q self [] sample_collab None "42|secret"
              (ApiError "no next page") eq_refl eq_refl) as [_ Hread].
  destruct (Hread [] [] eq_refl eq_refl) as [Hraise Hnext].
  split; [exact Hraise|]. intros ck. exact (Hnext 1%Q [] ck).
Defined.

Lemma fetched_checkpoint_is_fresh_witness :
  let self := configured_api ordered_pages in
  let now := (3 # 2)%Q in
  ∃ d self',
    fetch_once now self [] sample_collab None = (Ok d, self')
    ∧ last_fetch_time (checkpoint d) = 1
    ∧ is_stale now (checkpoint d) = false.
Proof.
  intros self now.
  destruct (fetch_once now self [] sample_collab None) as [[d|e] self'] eqn:Hf;
    [|discriminate Hf].
  exists d, self'. split; [reflexivity|].
  exact (fetched_checkpoint_is_fresh
           (client := paged_client 42 ordered_pages)
           now self [] sample_collab None d self' Hf).
Defined.

Lemma stale_stays_stale_witness :
  let c := mkCheckpoint 0 5 in
  (7344006 # 1 <= 8000000 # 1)%Q
  ∧ (is_stale (7344006 # 1) c = true → is_stale (8000000 # 1) c = true)
  ∧ (is_stale (8000000 # 1) c = false → is_stale (7344006 # 1) c = false)
  ∧ ∀ t, is_stale (7344006 # 1) (mkCheckpoint t (last_fetch_time c))
         = is_stale (7344006 # 1) c.
Proof.
  intros c.
  assert (7344006 # 1 <= 8000000 # 1)%Q as Hle by (unfold Qle; simpl; lia).
  split; [exact Hle|].
  exact (stale_stays_stale (7344006 # 1) (8000000 # 1) c Hle).
Defined.

Lemma last_descriptor_of_owner_wins_witness :
  let first := sample_descriptor 1 7 "MALICIOUS" [] in
  let second := sample_descriptor 2 7 "NON_MALICIOUS" [] in
  let u := mkUpdate false "HASH_PDQ" "abc123" 3 [first; second] in
  let r := mkRecord [descriptor_opinion second] in
  from_threatexchange_json u = Some r
  ∧ descriptors_data u = [first] ++ second :: []
  ∧ descriptor_opinion second ∈ opinions r
  ∧ ∀ op, op ∈ opinions r → owner op = td_owner_id second →
          op = descriptor_opinion second.
Proof.
  intros first second u r. split; [reflexivity|]. split; [reflexivity|].
  apply (last_descriptor_of_owner_wins u r [first] second []);
    [reflexivity | reflexivity |].
  intros td' Hin. by apply elem_of_nil in Hin.
Defined.

Lemma implicit_category_table_witness :
  dict_get 8 (collect_opinions reacted_update).2 = Some TRUE_POSITIVE
  ∧ dict_get 9 (collect_opinions reacted_update).2 = None.
Proof.
  destruct (implicit_category_table reacted_update 8) as (Hhelpful & _).
  destruct (implicit_category_table reacted_update 9) as (_ & _ & Hnone).
  split.
  - apply Hhelpful. unfold has_reaction. simpl. in_list.
  - apply Hnone; unfold has_reaction; simpl; intros Hin;
      repeat (apply elem_of_cons in Hin as [Hin|Hin]; [discriminate Hin|]);
      by apply elem_of_nil in Hin.
Defined.

Lemma loaded_collabs_are_distinct_files_witness :
  let cfgs := [named_collab "a"; named_collab "b"] in
  _cache sample_state = None
  ∧ (get_all_collabs sample_state sample_listing).1 = Ok cfgs
  ∧ NoDup (name <$> cfgs)
  ∧ ∀ c, c ∈ cfgs →
      ∃ entry, entry ∈ sample_listing ∧ ends_with ".json" entry.1 = true
               ∧ store_notions.loads_as sample_state entry c.
Proof.
  intros cfgs. split; [reflexivity|]. split; [reflexivity|].
  destruct (get_all_collabs sample_state sample_listing) as [r self'] eqn:Hget.
  assert (r = Ok cfgs) as -> by (by injection Hget as <- _).
  exact (loaded_collabs_are_distinct_files (codec := name_codec)
           sample_state sample_listing cfgs self' eq_refl Hget).
Defined.


Lemma get_collab_finds_by_name_witness :
  (get_all_collabs sample_state sample_listing).1
  = Ok [named_collab "a"; named_collab "b"]
  ∧ ∃ r, (get_collab sample_state sample_listing "b").1 = Ok r
         ∧ match r with
           | Some c => c ∈ [named_collab "a"; named_collab "b"] ∧ name c = "b"
           | None => "b" ∉ (name <$> [named_collab "a"; named_collab "b"])
           end.
Proof.
  split; [reflexivity|].
  destruct (get_all_collabs sample_state sample_listing) as [r0 self'] eqn:Hget.
  assert (r0 = Ok [named_collab "a"; named_collab "b"]) as ->
    by (by injection Hget as <- _).
  destruct (get_collab_finds_by_name (codec := name_codec)
              sample_state sample_listing _ self' "b" Hget) as (r & Hr & Hm).
  exists r. split; [by rewrite Hr | exact Hm].
Defined.




Section cli_instances.
Import cli_settings main hash_cmd hash_notions.

Lemma persistent_config_follows_last_set_witness :
  let held := mkCLiConfig (Some "1|x") ∅ in
  let later := mkCLiConfig (Some "2|y") ∅ in
  let self := (set_persistent_config (filecodec := token_file_codec)
                 sample_settings held (mkDisk [] None)).1 in
  let ops := [SGetConfig; SOutside (mkDisk [] (Some "9|z")); SGetConfig;
              SSetConfig later; SGetAllCollabs true; SGetConfig] in
  _config self = Some held
  ∧ config_answers
      (settings_run (filecodec := token_file_codec) "sample" ops
         (self, mkDisk [] None, [])).1
    = [SAnsConfig (Ok held); SAnsNone; SAnsConfig (Ok held); SAnsNone;
       SAnsNone; SAnsConfig (Ok later)].
Proof.
  intros held later self ops. split; [reflexivity|].
  exact (persistent_config_follows_last_set (filecodec := token_file_codec)
           "sample" self held ops (mkDisk [] None) [] eq_refl).
Defined.

Example sample_notice_in_a_history :
  (settings_run (filecodec := token_file_codec) "sample"
     [SGetAllCollabs true; SGetAllCollabs false; SGetAllCollabs true]
     (sample_settings, mkDisk [] None, [])).2.2
  = [sample_message].
Proof. reflexivity. Qed.

Lemma app_token_is_valid_and_from_a_source_witness :
  let env := mkEnvironment (Some "  12|ab ") "/home/user/.txtoken" None in
  _get_fb_tx_app_token (tokens := bar_tokens) env default_CLiConfig
  = (Some "12|ab", [])
  ∧ is_valid_app_token (AppTokens := bar_tokens) "12|ab" = true
  ∧ ∃ raw, raw ≠ "" ∧ "12|ab" = strip (AppTokens := bar_tokens) raw
           ∧ (TX_ACCESS_TOKEN env = Some raw
              ∨ fb_threatexchange_api_token default_CLiConfig = Some raw
              ∨ file_text env = Some raw).
Proof.
  intros env. split; [reflexivity|].
  destruct (app_token_is_valid_and_from_a_source (tokens := bar_tokens)
              env default_CLiConfig "12|ab" [] eq_refl) as (Hv & _ & Hsrc).
  split; [exact Hv | exact Hsrc].
Defined.


Lemma cli_fetcher_without_token_cannot_fetch_witness :
  let env := mkEnvironment None "/home/user/.txtoken" (Some "") in
  (fetch_once (client := paged_client 42 ordered_pages) 0%Q
     (fb_fetcher (tokens := bar_tokens) env default_CLiConfig) []
     sample_collab None).1
  = Raise token_not_configured.
Proof.
  intros env.
  destruct (cli_fetcher_without_token_cannot_fetch (tokens := bar_tokens)
              (client := paged_client 42 ordered_pages) env default_CLiConfig)
    as [Hnone _].
  destruct (Hnone eq_refl (CallFetchOnce 0%Q [] sample_collab None))
    as [Hraised _].
  exact Hraised.
Defined.

Lemma hash_lines_are_selected_hashes_witness :
  let self := hash_cmd.__init__ (strings := ascii_strings) [] "text" None true
                ["hello  "; ""] in
  (execute (codec := name_codec) self sample_settings).1.1 = ["raw_text hello"]
  ∧ ∃ content_type types s h inp,
      get_content_type sample_settings (content_type_str self)
      = Done content_type
      ∧ get_signal_types_for_content sample_settings content_type = Done types
      ∧ s ∈ types ∧ selected (signal_type self) s = true
      ∧ inp ∈ input_generator self
      ∧ h ≠ "" ∧ "raw_text hello" = st_name s +:+ " " +:+ h
      ∧ match inp with
        | InText t => ∃ f, hash_from_str s = Some f ∧ f t = Ok h
        | InPath p => ∃ f, hash_from_file s = Some f ∧ f p = Ok h
        end.
Proof.
  intros self. split; [reflexivity|].
  destruct (execute (codec := name_codec) self sample_settings)
    as [[out r] self'] eqn:Hex.
  assert (out = ["raw_text hello"]) as -> by (by injection Hex as <- _ _).
  apply (hash_lines_are_selected_hashes (codec := name_codec)
           self sample_settings _ r self' "raw_text hello" Hex).
  apply list_elem_of_here.
Defined.


Lemma inputs_reach_only_their_kind_of_hasher_witness :
  let f := λ s, mkSignalType (st_name s) None (hash_from_str s) in
  let self := hash_cmd.__init__ (strings := ascii_strings) ["piped in"] "text"
                None true ["-"] in
  (∀ s, st_name (f s) = st_name s)
  ∧ execute (codec := name_codec) self (with_signal_types f sample_settings)
    = execute (codec := name_codec) self sample_settings.
Proof.
  intros f self.
  assert (∀ s, st_name (f s) = st_name s) as Hname by reflexivity.
  split; [exact Hname|].
  destruct (inputs_reach_only_their_kind_of_hasher (strings := ascii_strings)
              (codec := name_codec) f ["piped in"] "text" None ["-"]
              sample_settings Hname) as [Htext _].
  apply Htext. reflexivity.
Defined.

End cli_instances.
